(** * Password-strength console: a shallow embedding of the React component

    Two front-ends of the same component are embedded:
    - the dashboard surface ([src/unnamed/part_000]) with the threat
      telemetry feeds, the weak-pattern precheck and the crack-time label;
    - the compact surface
      ([src/frontend/src/components/PasswordStrengthUI.jsx]).

    JavaScript strings are Rocq strings, one character per UTF-16 code
    unit; this is exact for ASCII text, which is what passwords are taken
    over.  The non-ASCII glyphs of the log-line literals appear UTF-8
    encoded; log lines are only ever appended and compared.  A value that
    may be [undefined] is an [option], [None] standing for [undefined]. *)

From Stdlib Require Import ZArith List String Ascii Bool Arith Lia.
From Stdlib Require Import QArith Qround.
From Stdlib Require Import DecimalString.
Import ListNotations.

Close Scope Q_scope.
Local Open Scope string_scope.
Local Open Scope list_scope.

(** String concatenation, as in a template literal. *)
Infix "+++" := String.append (right associativity, at level 60).

(** ** JavaScript string primitives *)

Module JS.

(** [c.toLowerCase()] on one code unit of the ASCII range. *)
Definition lower_ascii (c : ascii) : ascii :=
  let n := nat_of_ascii c in
  if (65 <=? n)%nat && (n <=? 90)%nat then ascii_of_nat (n + 32) else c.

(** [s.toLowerCase()] *)
Fixpoint toLowerCase (s : string) : string :=
  match s with
  | EmptyString => EmptyString
  | String c s' => String (lower_ascii c) (toLowerCase s')
  end.

(** [s.startsWith(t)] *)
Fixpoint startsWith (s t : string) {struct t} : bool :=
  match t, s with
  | EmptyString, _ => true
  | String _ _, EmptyString => false
  | String b t', String a s' => Ascii.eqb a b && startsWith s' t'
  end.

(** [s.includes(t)]: [t] occurs in [s] at some position. *)
Fixpoint includes (s t : string) : bool :=
  startsWith s t ||
  match s with
  | EmptyString => false
  | String _ s' => includes s' t
  end.

(** [s.repeat(n)] *)
Fixpoint repeat (s : string) (n : nat) : string :=
  match n with
  | O => EmptyString
  | S k => s +++ repeat s k
  end.

(** Truthiness of a string-or-undefined value: [undefined] and the empty
    string are falsy. *)
Definition truthy (v : option string) : bool :=
  match v with
  | Some s => negb (s =? "")
  | None => false
  end.

(** Template-literal rendering [`${n}`] of an integer. *)
Definition showZ (z : Z) : string := NilZero.string_of_int (Z.to_int z).

(** [`${v}`] for a string-or-undefined value. *)
Definition showStr (v : option string) : string :=
  match v with Some s => s | None => "undefined" end.

(** [`${v}`] for a number-or-undefined value. *)
Definition showNum (v : option Z) : string :=
  match v with Some z => showZ z | None => "undefined" end.

(** [v >= n] for a number-or-undefined value; [undefined >= n] is false. *)
Definition ge (v : option Z) (n : Z) : bool :=
  match v with Some z => (n <=? z)%Z | None => false end.

(** [arr.some(p)] *)
Definition some {A} (p : A -> bool) (arr : list A) : bool := existsb p arr.

(** [arr.slice(0, n)] *)
Definition slice0 {A} (n : nat) (arr : list A) : list A := firstn n arr.

End JS.

(** ** Pure helpers of the component *)

(** [strengthLabels] (both surfaces). *)
Definition strengthLabels : list string :=
  ["CRITICAL"; "WEAK"; "FAIR"; "STRONG"; "PERFECT"].

(** [weakPasswordDatabase] (dashboard). *)
Definition weakPasswordDatabase : list string :=
  ["password"; "123456"; "password123"; "admin"; "qwerty"; "letmein";
   "welcome"; "monkey"; "dragon"; "master"; "superman"; "batman"].

(** [calculateCrackTime(pwd)] (dashboard). *)
Definition calculateCrackTime (pwd : string) : string :=
  if pwd =? "" then "Instant"
  else
    let length := String.length pwd in
    if (length <? 6)%nat then "< 1 second"
    else if (length <? 8)%nat then "< 1 minute"
    else if (length <? 10)%nat then "< 1 hour"
    else if (length <? 12)%nat then "< 1 day"
    else if (length <? 14)%nat then "< 1 year"
    else "> 100 years".

(** The precheck of [checkPasswordStrength] (dashboard):
    [weakPasswordDatabase.some(weak =>
       pwd.toLowerCase().includes(weak.toLowerCase()))]. *)
Definition isWeak (pwd : string) : bool :=
  JS.some (fun weak => JS.includes (JS.toLowerCase pwd) (JS.toLowerCase weak))
          weakPasswordDatabase.

(** The strength hook: [{ score, feedback }].  The score is whatever the
    collaborator sent, an integer or [undefined]. *)
Record strength_t := mkStrength {
  score : option Z;
  feedback : list string
}.

(** [strengthLabels[i]] for a number-or-undefined index. *)
Definition label_at (i : option Z) : option string :=
  match i with
  | Some z => if (z <? 0)%Z then None else nth_error strengthLabels (Z.to_nat z)
  | None => None
  end.

(** [const currentStrength = strengthLabels[strength.score] || "CRITICAL"] *)
Definition currentStrength (strength : strength_t) : string :=
  match label_at (score strength) with
  | Some l => if l =? "" then "CRITICAL" else l
  | None => "CRITICAL"
  end.

(** [const isSecure = strength.score >= 3] *)
Definition isSecure (strength : strength_t) : bool :=
  JS.ge (score strength) 3.

(** ** Collaborator responses *)

(** What the two awaits [await fetch(...)] and [await response.json()]
    deliver to the code that follows them: either an exception inside the
    [try] block (the request was rejected, the body did not decode, or it
    decoded to [null] so that reading [data.error] throws), carrying
    [error.message], or the decoded object. *)
Inductive settled (A : Type) : Type :=
| Thrown (message : string)
| Decoded (data : A).
Arguments Thrown {A} message.
Arguments Decoded {A} data.

(** Body of a [POST /api/check] response; every field may be absent. *)
Record check_data := mkCheck {
  c_error : option string;
  c_score : option Z;
  c_strength : option string;
  c_suggestions : option (list string)
}.

(** Body of a [GET /api/generate] response. *)
Record generate_data := mkGenerate {
  g_error : option string;
  g_password : option string
}.

(** ** Hooks and setter calls *)

(** The [useState] hooks that both surfaces declare. *)
Record hooks := mkHooks {
  password : option string;
  strength : strength_t;
  generated : option string;
  showPassword : bool;
  terminalLines : list string;
  isAnalyzing : bool
}.

(** One call of a state setter.  [setTerminalLines] is always called with
    an updater function [prev => ...]; React runs the updater when it
    processes the update, outside the [try] block of the caller, so an
    updater that throws ([None]) is a fault of the render. *)
Inductive setter :=
| setPassword (v : option string)
| setStrength (s : strength_t)
| setGenerated (v : option string)
| setShowPassword (b : bool)
| setTerminalLines (updater : list string -> option (list string))
| setIsAnalyzing (b : bool).

(** The updater [prev => [...prev, ...lines]]. *)
Definition append (lines : list string) : list string -> option (list string) :=
  fun prev => Some (prev ++ lines).

Definition dispatch (h : hooks) (c : setter) : option hooks :=
  match c with
  | setPassword v =>
      Some (mkHooks v (strength h) (generated h) (showPassword h)
                    (terminalLines h) (isAnalyzing h))
  | setStrength s =>
      Some (mkHooks (password h) s (generated h) (showPassword h)
                    (terminalLines h) (isAnalyzing h))
  | setGenerated v =>
      Some (mkHooks (password h) (strength h) v (showPassword h)
                    (terminalLines h) (isAnalyzing h))
  | setShowPassword b =>
      Some (mkHooks (password h) (strength h) (generated h) b
                    (terminalLines h) (isAnalyzing h))
  | setTerminalLines updater =>
      match updater (terminalLines h) with
      | Some lines =>
          Some (mkHooks (password h) (strength h) (generated h)
                        (showPassword h) lines (isAnalyzing h))
      | None => None
      end
  | setIsAnalyzing b =>
      Some (mkHooks (password h) (strength h) (generated h) (showPassword h)
                    (terminalLines h) b)
  end.

(** Processing a batch of setter calls in call order; [None] when an
    updater throws, which leaves the component unmounted. *)
Fixpoint render (h : hooks) (batch : list setter) : option hooks :=
  match batch with
  | [] => Some h
  | c :: rest =>
      match dispatch h c with
      | Some h' => render h' rest
      | None => None
      end
  end.

(** An [async] handler with one awaited collaborator call: the setter
    calls made before the call is issued, and those made when the awaited
    result arrives. *)
Record async (A : Type) := mkAsync {
  before : list setter;
  after : settled A -> list setter
}.
Arguments mkAsync {A} before after.
Arguments before {A} a.
Arguments after {A} a r.

(** What differs between the two surfaces. *)
Record surface := mkSurface {
  checkPasswordStrength : string -> async check_data;
  generateSecurePassword : async generate_data;
  (** the [else] branch of the debounce callback *)
  passwordCleared : list setter;
  (** the effect on [[showPassword, password]] *)
  visibilityEffect : hooks -> list setter;
  (** the click handler of the copy button, where there is one *)
  copyToClipboard : option (list setter)
}.

(** [`${(pass.length * 6.5).toFixed(1)}`]: [6.5 * n] is a half-integer. *)
Definition entropyBits (n : nat) : string :=
  let twice := (13 * Z.of_nat n)%Z in
  JS.showZ (twice / 2) +++ "." +++ (if Z.even twice then "0" else "5").

Definition orEmpty (v : option (list string)) : list string :=
  match v with Some l => l | None => [] end.

(** ** The dashboard surface ([src/unnamed/part_000]) *)

Module Dashboard.

Definition checkPasswordStrength (pwd : string) : async check_data :=
  mkAsync
    ([ setIsAnalyzing true;
       setTerminalLines
         (append ["$ ANALYZING: " +++
                  (if pwd =? "" then "EMPTY"
                   else JS.repeat "•" (String.length pwd))]) ]
     ++ (if isWeak pwd
         then [ setTerminalLines
                  (append ["⚠ WARNING: Password found in breach database!"]) ]
         else []))
    (fun r =>
       match r with
       | Thrown message =>
           [ setTerminalLines (append ["✗ CONNECTION FAILED: " +++ message]);
             setIsAnalyzing false ]
       | Decoded data =>
           if JS.truthy (c_error data) then
             [ setTerminalLines
                 (append ["✗ ANALYSIS FAILED: " +++ JS.showStr (c_error data)]);
               setIsAnalyzing false ]
           else
             let crackTime := calculateCrackTime pwd in
             [ setStrength
                 (mkStrength (c_score data) (orEmpty (c_suggestions data)));
               setTerminalLines
                 (fun prev =>
                    match c_suggestions data with
                    | None => None
                    | Some suggestions =>
                        Some (prev ++
                          [ "✓ ANALYSIS COMPLETE: " +++ JS.showStr (c_strength data)
                              +++ " (" +++ JS.showNum (c_score data) +++ "/4)";
                            "⏱ Crack Time: " +++ crackTime;
                            "🛡 Protection Level: " +++
                              (if JS.ge (c_score data) 3
                               then "SECURE" else "VULNERABLE") ]
                          ++ map (fun s => "→ " +++ s)
                                 (JS.slice0 3 suggestions))
                    end);
               setIsAnalyzing false ]
       end).

Definition generateSecurePassword : async generate_data :=
  mkAsync
    [ setTerminalLines (append ["$ GENERATING QUANTUM-SAFE PASSWORD..."]) ]
    (fun r =>
       match r with
       | Thrown message =>
           [ setTerminalLines (append ["✗ GENERATION FAILED: " +++ message]) ]
       | Decoded data =>
           if JS.truthy (g_error data) then
             [ setTerminalLines
                 (append ["✗ GENERATION FAILED: " +++ JS.showStr (g_error data)]) ]
           else
             let pass := g_password data in
             [ setGenerated pass;
               setPassword pass;
               setTerminalLines
                 (fun prev =>
                    match pass with
                    | None => None
                    | Some p =>
                        Some (prev ++
                          [ "✓ PASSWORD GENERATED";
                            "📏 Length: "
                              +++ JS.showZ (Z.of_nat (String.length p))
                              +++ " characters";
                            "💪 Entropy: " +++ entropyBits (String.length p)
                              +++ " bits";
                            "🛡 Strength: MAXIMUM" ])
                    end) ]
       end).

Definition passwordCleared : list setter :=
  [ setStrength (mkStrength (Some 0%Z) []) ].

Definition copyToClipboard : list setter :=
  [ setTerminalLines (append ["✓ Password copied to clipboard"]) ].

Definition ui : surface :=
  mkSurface checkPasswordStrength generateSecurePassword passwordCleared
            (fun _ => []) (Some copyToClipboard).

End Dashboard.

(** ** The compact surface ([PasswordStrengthUI.jsx]) *)

Module Compact.

Definition checkPasswordStrength (pwd : string) : async check_data :=
  mkAsync
    [ setIsAnalyzing true;
      setTerminalLines
        (append ["$ ANALYZING PASSWORD: "
                 +++ (if pwd =? "" then "EMPTY" else "****")
                 +++ " → CONNECTED TO BACKEND"]) ]
    (fun r =>
       match r with
       | Thrown message =>
           [ setTerminalLines (append ["$ CONNECTION FAILED: " +++ message]);
             setIsAnalyzing false ]
       | Decoded data =>
           if JS.truthy (c_error data) then
             [ setTerminalLines
                 (append ["$ ANALYSIS FAILED: " +++ JS.showStr (c_error data)]);
               setIsAnalyzing false ]
           else
             [ setStrength
                 (mkStrength (c_score data) (orEmpty (c_suggestions data)));
               setTerminalLines
                 (fun prev =>
                    match c_suggestions data with
                    | None => None
                    | Some suggestions =>
                        Some (prev ++
                          [ "$ ANALYSIS COMPLETE: " +++ JS.showStr (c_strength data)
                              +++ " (" +++ JS.showNum (c_score data) +++ "/4)";
                            "$ THREAT LEVEL: " +++ JS.showStr (c_strength data) ]
                          ++ map (fun s => "$ RECOMMENDATION: " +++ s)
                                 (JS.slice0 3 suggestions))
                    end);
               setIsAnalyzing false ]
       end).

Definition generateSecurePassword : async generate_data :=
  mkAsync
    [ setTerminalLines (append ["$ GENERATING PASSWORD: CONNECTING TO BACKEND"]) ]
    (fun r =>
       match r with
       | Thrown message =>
           [ setTerminalLines (append ["$ GENERATION FAILED: " +++ message]) ]
       | Decoded data =>
           if JS.truthy (g_error data) then
             [ setTerminalLines
                 (append ["$ GENERATION FAILED: " +++ JS.showStr (g_error data)]) ]
           else
             let pass := g_password data in
             [ setGenerated pass;
               setPassword pass;
               setTerminalLines
                 (fun prev =>
                    match pass with
                    | None => None
                    | Some p =>
                        Some (prev ++
                          [ "$ PASSWORD GENERATED: SUCCESS";
                            "$ LENGTH: " +++ JS.showZ (Z.of_nat (String.length p));
                            "$ STRENGTH: " +++
                              (if (12 <=? String.length p)%nat
                               then "PERFECT" else "STRONG") ])
                    end) ]
       end).

Definition passwordCleared : list setter :=
  [ setStrength (mkStrength (Some 0%Z) []);
    setTerminalLines (append ["$ PASSWORD CLEARED"]) ].

Definition visibilityEffect (h : hooks) : list setter :=
  if JS.truthy (password h) && showPassword h then
    [ setTerminalLines (append ["$ VISIBILITY: ENABLED"]) ]
  else if JS.truthy (password h) then
    [ setTerminalLines (append ["$ VISIBILITY: ENCRYPTED"]) ]
  else [].

Definition ui : surface :=
  mkSurface checkPasswordStrength generateSecurePassword passwordCleared
            visibilityEffect None.

End Compact.

(** ** The component at run time: timers, effects, requests in flight *)

(** A handle returned by [setTimeout] for the debounce callback; the
    callback closes over the password of the render that scheduled it. *)
Record timer := mkTimer {
  handle : nat;
  due : nat;
  captured : option string
}.

Record runtime := mkRuntime {
  ui : hooks;
  (** the [setTimeout] handles that have neither fired nor been cleared *)
  timers : list timer;
  nextHandle : nat;
  (** the handle that the cleanup of the [[password]] effect will clear *)
  cleanup : nat;
  (** milliseconds since the component mounted *)
  now : nat;
  (** every [fetch('/api/check')] issued so far: time and body password *)
  checks : list (nat * string);
  (** positions in [checks] whose awaited response has not arrived *)
  awaiting : list nat;
  (** [fetch('/api/generate')] calls whose response has not arrived *)
  generating : nat
}.

Definition with_ui (rt : runtime) (h : hooks) : runtime :=
  mkRuntime h (timers rt) (nextHandle rt) (cleanup rt) (now rt)
            (checks rt) (awaiting rt) (generating rt).

Definition same_value (a b : option string) : bool :=
  match a, b with
  | Some x, Some y => x =? y
  | None, None => true
  | _, _ => false
  end.

(** [clearTimeout(h)] *)
Definition clearTimeout (h : nat) (ts : list timer) : list timer :=
  filter (fun t => negb (handle t =? h)%nat) ts.

(** The [[password]] effect re-running: its previous cleanup
    [clearTimeout(timer)], then [setTimeout(callback, 500)]. *)
Definition debounceEffect (rt : runtime) : runtime :=
  mkRuntime (ui rt)
            (clearTimeout (cleanup rt) (timers rt)
               ++ [mkTimer (nextHandle rt) (now rt + 500) (password (ui rt))])
            (S (nextHandle rt)) (nextHandle rt) (now rt)
            (checks rt) (awaiting rt) (generating rt).

(** A batch of setter calls is rendered and the effects whose dependencies
    changed run, in declaration order; the setter calls of the visibility
    effect are rendered in turn. *)
Definition commit (S : surface) (rt : runtime) (batch : list setter)
  : option runtime :=
  match render (ui rt) batch with
  | None => None
  | Some h =>
      let password_changed := negb (same_value (password (ui rt)) (password h)) in
      let show_changed := negb (Bool.eqb (showPassword (ui rt)) (showPassword h)) in
      let rt1 := with_ui rt h in
      let rt2 := if password_changed then debounceEffect rt1 else rt1 in
      if password_changed || show_changed then
        match render (ui rt2) (visibilityEffect S (ui rt2)) with
        | Some h2 => Some (with_ui rt2 h2)
        | None => None
        end
      else Some rt2
  end.

(** Calling an async handler: its first setter calls, then the request. *)
Definition issueCheck (S : surface) (rt : runtime) (pwd : string)
  : option runtime :=
  match commit S rt (before (checkPasswordStrength S pwd)) with
  | Some rt' =>
      Some (mkRuntime (ui rt') (timers rt') (nextHandle rt') (cleanup rt')
                      (now rt') (checks rt' ++ [(now rt', pwd)])
                      (awaiting rt' ++ [List.length (checks rt')]) (generating rt'))
  | None => None
  end.

(** The debounce callback:
    [if (password) checkPasswordStrength(password); else ...]. *)
Definition debounceCallback (S : surface) (rt : runtime)
           (password : option string) : option runtime :=
  match password with
  | Some pwd =>
      if negb (pwd =? "") then issueCheck S rt pwd
      else commit S rt (passwordCleared S)
  | None => commit S rt (passwordCleared S)
  end.

(** A due timer fires unless it was cleared in the meantime. *)
Definition fire (S : surface) (rt : runtime) (t : timer) : option runtime :=
  if existsb (fun t' => (handle t' =? handle t)%nat) (timers rt) then
    debounceCallback S
      (mkRuntime (ui rt) (clearTimeout (handle t) (timers rt)) (nextHandle rt)
                 (cleanup rt) (now rt) (checks rt) (awaiting rt) (generating rt))
      (captured t)
  else Some rt.

Fixpoint fireAll (S : surface) (rt : runtime) (ts : list timer)
  : option runtime :=
  match ts with
  | [] => Some rt
  | t :: rest =>
      match fire S rt t with
      | Some rt' => fireAll S rt' rest
      | None => None
      end
  end.

(** One millisecond passes and the timers that are due fire. *)
Definition tick (S : surface) (rt : runtime) : option runtime :=
  let rt1 := mkRuntime (ui rt) (timers rt) (nextHandle rt) (cleanup rt)
                       (Datatypes.S (now rt)) (checks rt) (awaiting rt)
                       (generating rt) in
  fireAll S rt1 (filter (fun t => (due t <=? now rt1)%nat) (timers rt1)).

Inductive event :=
| Input (v : string)         (* onChange={(e) => setPassword(e.target.value)} *)
| ToggleShow                 (* onClick={() => setShowPassword(!showPassword)} *)
| ClickGenerate              (* onClick={generateSecurePassword} disabled={isAnalyzing} *)
| ClickCopy                  (* the copy button, rendered when generated is truthy *)
| Tick                       (* one millisecond passes *)
| CheckSettled (i : nat) (r : settled check_data)
| GenerateSettled (r : settled generate_data).

Definition step (S : surface) (rt : runtime) (e : event) : option runtime :=
  match e with
  | Input v => commit S rt [setPassword (Some v)]
  | ToggleShow => commit S rt [setShowPassword (negb (showPassword (ui rt)))]
  | ClickGenerate =>
      if isAnalyzing (ui rt) then Some rt
      else
        match commit S rt (before (generateSecurePassword S)) with
        | Some rt' =>
            Some (mkRuntime (ui rt') (timers rt') (nextHandle rt') (cleanup rt')
                            (now rt') (checks rt') (awaiting rt')
                            (Datatypes.S (generating rt')))
        | None => None
        end
  | ClickCopy =>
      match copyToClipboard S with
      | Some handler =>
          if JS.truthy (generated (ui rt)) then commit S rt handler else Some rt
      | None => Some rt
      end
  | Tick => tick S rt
  | CheckSettled i r =>
      if existsb (Nat.eqb i) (awaiting rt) then
        match nth_error (checks rt) i with
        | Some (_, pwd) =>
            commit S
              (mkRuntime (ui rt) (timers rt) (nextHandle rt) (cleanup rt)
                         (now rt) (checks rt)
                         (filter (fun j => negb (j =? i)%nat) (awaiting rt))
                         (generating rt))
              (after (checkPasswordStrength S pwd) r)
        | None => Some rt
        end
      else Some rt
  | GenerateSettled r =>
      match generating rt with
      | O => Some rt
      | Datatypes.S n =>
          commit S
            (mkRuntime (ui rt) (timers rt) (nextHandle rt) (cleanup rt)
                       (now rt) (checks rt) (awaiting rt) n)
            (after (generateSecurePassword S) r)
      end
  end.

(** A run: [None] once a render has faulted and the component is gone. *)
Fixpoint run (S : surface) (rt : runtime) (es : list event) : option runtime :=
  match es with
  | [] => Some rt
  | e :: rest =>
      match step S rt e with
      | Some rt' => run S rt' rest
      | None => None
      end
  end.

(** The hooks' initial values and the state right after mounting: the
    [[password]] effect has scheduled its first timer. *)
Definition initialHooks : hooks :=
  mkHooks (Some "") (mkStrength (Some 0%Z) []) (Some "") false [] false.

Definition mounted : runtime :=
  mkRuntime initialHooks [mkTimer 0 500 (Some "")] 1 0 0 [] [] 0.

(** [n] milliseconds pass. *)
Definition wait (n : nat) : list event := List.repeat Tick n.

(** ** The telemetry feeds (dashboard)

    The three [setInterval] effects read and write only their own hooks
    ([globalStats], [attackData], [liveChecks]).  A value of
    [Math.random()] is a rational [r] with [0 <= r < 1], products with it
    are taken exactly, and counters are unbounded integers. *)

Module Telemetry.

(** [Math.floor(r * n)] *)
Definition floorScaled (r : Q) (n : Z) : Z := Qfloor (r * inject_Z n).

(** The range of [Math.random()]. *)
Definition unit_draw (r : Q) : Prop := (0 <= r)%Q /\ (r < 1)%Q.

Record globalStats_t := mkStats {
  attacksToday : Z;
  passwordsCompromised : Z;
  activeThreats : Z;
  weakPasswords : Z
}.

(** The updater of the 3000 ms interval, with its four draws in
    evaluation order. *)
Definition statsUpdater (r1 r2 r3 r4 : Q) (prev : globalStats_t)
  : globalStats_t :=
  mkStats (attacksToday prev + floorScaled r1 1000)
          (passwordsCompromised prev + floorScaled r2 50)
          (floorScaled r3 500 + 1000)
          (floorScaled r4 1000000 + 5000000).

Record archetype := mkArchetype {
  a_type : string;
  a_origin : string;
  a_target : string;
  a_severity : string
}.

Definition attackTypes : list archetype :=
  [ mkArchetype "Brute Force" "Russia" "Banking" "HIGH";
    mkArchetype "Dictionary" "China" "Healthcare" "MEDIUM";
    mkArchetype "Rainbow Table" "Unknown" "Government" "CRITICAL";
    mkArchetype "Credential Stuffing" "Brazil" "E-commerce" "HIGH";
    mkArchetype "Hybrid Attack" "Iran" "Education" "MEDIUM";
    mkArchetype "Phishing" "Nigeria" "Finance" "HIGH";
    mkArchetype "SQL Injection" "Romania" "Retail" "CRITICAL";
    mkArchetype "Keylogger" "North Korea" "Defense" "CRITICAL" ].

(** [arr[i]] *)
Definition at_index {A} (arr : list A) (i : Z) : option A :=
  if (i <? 0)%Z then None else nth_error arr (Z.to_nat i).

(** An attack event: the spread archetype (nothing when the index
    misses), then [id], [timestamp], [attempts], [blocked]. *)
Record attack := mkAttack {
  spread : option archetype;
  id : Z;
  timestamp : string;
  attempts : Z;
  blocked : bool
}.

(** The body of the 2000 ms interval builds [newAttack] from three
    draws, [Date.now()] and [new Date().toLocaleTimeString()]. *)
Definition newAttack (r_index : Q) (date_now : Z) (time : string)
           (r_attempts r_blocked : Q) : attack :=
  mkAttack
    (at_index attackTypes
              (floorScaled r_index (Z.of_nat (List.length attackTypes))))
    date_now time
    (floorScaled r_attempts 10000 + 1000)
    (negb (Qle_bool r_blocked (3 # 10))).

(** [prev => [newAttack, ...prev].slice(0, 10)] *)
Definition attackUpdater (a : attack) (prev : list attack) : list attack :=
  JS.slice0 10 (a :: prev).

Definition chars : string :=
  "ABCDEFGHIJKLMNOPQRSTUVWXYZabcdefghijklmnopqrstuvwxyz0123456789!@#$%^&*".

(** [chars[i]], the empty string standing for [undefined] under [join]. *)
Definition charAt (i : Z) : string :=
  if (i <? 0)%Z then ""
  else match String.get (Z.to_nat i) chars with
       | Some c => String c EmptyString
       | None => ""
       end.

(** [generateRandomPassword()]: sixteen draws, [draws k] being the
    [k]-th. *)
Definition generateRandomPassword (draws : nat -> Q) : string :=
  String.concat ""
    (map (fun k => charAt (floorScaled (draws k)
                                       (Z.of_nat (String.length chars))))
         (seq 0 16)).

Record sample := mkSample {
  s_password : string;
  s_result : string;
  s_reason : string;
  s_location : string
}.

(** [checkTypes], rebuilt on every tick of the 4000 ms interval. *)
Definition checkTypes (draws : nat -> Q) : list sample :=
  [ mkSample "P@ssw0rd!" "WEAK" "Common pattern" "USA";
    mkSample "john2024" "CRITICAL" "Personal info" "UK";
    mkSample "qwerty123" "CRITICAL" "Keyboard pattern" "India";
    mkSample "iloveyou" "WEAK" "Common phrase" "Philippines";
    mkSample "Tr0ub4dor&3" "FAIR" "Predictable substitution" "Canada";
    mkSample (generateRandomPassword draws) "PERFECT" "Strong entropy"
             "Germany" ].

Record liveCheck := mkLiveCheck {
  l_spread : option sample;
  l_id : Z;
  l_timestamp : string
}.

Definition newCheck (draws : nat -> Q) (r_index : Q) (date_now : Z)
           (time : string) : liveCheck :=
  mkLiveCheck
    (at_index (checkTypes draws)
              (floorScaled r_index
                           (Z.of_nat (List.length (checkTypes draws)))))
    date_now time.

(** [prev => [newCheck, ...prev].slice(0, 5)] *)
Definition liveUpdater (c : liveCheck) (prev : list liveCheck)
  : list liveCheck :=
  JS.slice0 5 (c :: prev).

Record feeds := mkFeeds {
  globalStats : globalStats_t;
  attackData : list attack;
  liveChecks : list liveCheck
}.

Definition initialFeeds : feeds := mkFeeds (mkStats 0 0 0 0) [] [].

(** One firing of one of the three intervals, with what it reads from
    the environment. *)
Inductive pulse :=
| StatsTick (r1 r2 r3 r4 : Q)
| AttackTick (r_index : Q) (date_now : Z) (time : string)
             (r_attempts r_blocked : Q)
| LiveTick (draws : nat -> Q) (r_index : Q) (date_now : Z) (time : string).

Definition onPulse (f : feeds) (p : pulse) : feeds :=
  match p with
  | StatsTick r1 r2 r3 r4 =>
      mkFeeds (statsUpdater r1 r2 r3 r4 (globalStats f))
              (attackData f) (liveChecks f)
  | AttackTick r_index date_now time r_attempts r_blocked =>
      mkFeeds (globalStats f)
              (attackUpdater
                 (newAttack r_index date_now time r_attempts r_blocked)
                 (attackData f))
              (liveChecks f)
  | LiveTick draws r_index date_now time =>
      mkFeeds (globalStats f) (attackData f)
              (liveUpdater (newCheck draws r_index date_now time)
                           (liveChecks f))
  end.

Definition feed (ps : list pulse) : feeds := fold_left onPulse ps initialFeeds.

(** The attack events a run created, oldest first. *)
Definition attacksCreated (ps : list pulse) : list attack :=
  flat_map (fun p => match p with
                     | AttackTick r_index date_now time r_attempts r_blocked =>
                         [newAttack r_index date_now time r_attempts r_blocked]
                     | _ => []
                     end) ps.

(** The live-check events a run created, oldest first. *)
Definition checksCreated (ps : list pulse) : list liveCheck :=
  flat_map (fun p => match p with
                     | LiveTick draws r_index date_now time =>
                         [newCheck draws r_index date_now time]
                     | _ => []
                     end) ps.

End Telemetry.

(** ** Statements that follow the specification's wording *)

(** Two code units are the same letter up to case: they are equal, or
    one of them is a capital letter [A] (65) to [Z] (90) and the other is
    the small letter of the same name, 32 positions further. *)
Definition same_letter (a b : ascii) : Prop :=
  a = b \/
  (65 <= nat_of_ascii a <= 90 /\ nat_of_ascii b = nat_of_ascii a + 32) \/
  (65 <= nat_of_ascii b <= 90 /\ nat_of_ascii a = nat_of_ascii b + 32).

(** Two texts are equal up to letter case: they have the same length and
    the same letter, up to case, at every position. *)
Fixpoint ci_equal (s t : string) : Prop :=
  match s, t with
  | EmptyString, EmptyString => True
  | String a s', String b t' => same_letter a b /\ ci_equal s' t'
  | _, _ => False
  end.

(** [w] is a case-insensitive substring of [p]: some stretch of [p] equals
    [w] up to letter case. *)
Definition ci_substring (w p : string) : Prop :=
  exists pre mid post, p = pre +++ mid +++ post /\ ci_equal mid w.

(** The two surfaces of the repository. *)
Definition shipped (S : surface) : Prop := S = Dashboard.ui \/ S = Compact.ui.

(** A state that some run from the freshly mounted component reaches. *)
Definition reachable (S : surface) (rt : runtime) : Prop :=
  exists es, run S mounted es = Some rt.




(** The arrival of an error-free generation response. *)
Definition successfulGenerate (e : event) : bool :=
  match e with
  | GenerateSettled (Decoded data) => negb (JS.truthy (g_error data))
  | _ => false
  end.

(** The hooks [h] with [lines] appended to the terminal log. *)
Definition logged (h : hooks) (lines : list string) : hooks :=
  mkHooks (password h) (strength h) (generated h) (showPassword h)
          (terminalLines h ++ lines) (isAnalyzing h).

(** The component after a render that produced the hooks [h]: the
    debounce effect has re-run exactly when the password text changed. *)
Definition rearmed (rt : runtime) (h : hooks) : runtime :=
  if same_value (password (ui rt)) (password h) then with_ui rt h
  else debounceEffect (with_ui rt h).

(** The debounce invariant: no timer is live, or exactly one is, the one
    the effect's cleanup will clear; it closes over the current password
    text and is due within the next 500 ms. *)
Definition armed (rt : runtime) : Prop :=
  timers rt = [] \/
  exists d, timers rt = [mkTimer (cleanup rt) d (password (ui rt))] /\
            now rt < d <= now rt + 500.

(** The component [n] milliseconds later, nothing else having happened. *)
Definition elapse (rt : runtime) (n : nat) : runtime :=
  mkRuntime (ui rt) (timers rt) (nextHandle rt) (cleanup rt) (now rt + n)
            (checks rt) (awaiting rt) (generating rt).

(** The setter calls that write the [generated] hook. *)
Definition writes_generated (c : setter) : bool :=
  match c with setGenerated _ => true | _ => false end.

(** ** What the surfaces display *)

(** [arr.slice(-n)]: the last [n] elements, all of them when there are
    fewer. *)
Definition sliceFromEnd {A} (n : nat) (arr : list A) : list A :=
  skipn (List.length arr - n) arr.

(** The header badge of both surfaces:
    [isAnalyzing ? 'SCANNING...' : (isSecure ? 'SECURE' : atRisk)], where
    [atRisk] is ['AT RISK'] on the dashboard and ['VULNERABLE'] on the
    compact surface. *)
Definition statusBadge (atRisk : string) (h : hooks) : string :=
  if isAnalyzing h then "SCANNING..."
  else if isSecure (strength h) then "SECURE" else atRisk.

Module DashboardView.

Definition badge : hooks -> string := statusBadge "AT RISK".

(** [attackData.filter(a => a.severity === 'CRITICAL').length] *)
Definition criticalCount (attackData : list Telemetry.attack) : nat :=
  List.length
    (filter (fun a => match Telemetry.spread a with
                      | Some k => Telemetry.a_severity k =? "CRITICAL"
                      | None => false
                      end) attackData).

(** [attackData.filter(a => !a.blocked).length] *)
Definition activeCount (attackData : list Telemetry.attack) : nat :=
  List.length (filter (fun a => negb (Telemetry.blocked a)) attackData).

(** [attackData.filter(a => a.blocked).length] *)
Definition blockedCount (attackData : list Telemetry.attack) : nat :=
  List.length (filter (fun a => Telemetry.blocked a) attackData).

(** The masked password of a live check:
    ['•'.repeat(Math.min(check.password.length, 20))] followed by
    [check.password.length > 20 && '...']. *)
Definition maskedPassword (pwd : string) : string :=
  JS.repeat "•" (Nat.min (String.length pwd) 20)
  +++ (if (20 <? String.length pwd)%nat then "..." else "").

End DashboardView.

Module CompactView.

Definition badge : hooks -> string := statusBadge "VULNERABLE".

(** [terminalLines.slice(-20)], the lines the log panel shows. *)
Definition terminalView (terminalLines : list string) : list string :=
  sliceFromEnd 20 terminalLines.

(** The colour class of one segment of the five-segment bar:
    [segment <= strength.score
       ? (segment < 2 ? red : segment < 3 ? yellow : green) : gray]. *)
Definition segmentClass (strength : strength_t) (segment : Z) : string :=
  if JS.ge (score strength) segment then
    if (segment <? 2)%Z then "bg-red-500"
    else if (segment <? 3)%Z then "bg-yellow-500"
    else "bg-green-500"
  else "bg-gray-800".

(** [[0, 1, 2, 3, 4].map((segment) => ...)] *)
Definition segments (strength : strength_t) : list string :=
  map (segmentClass strength) [0; 1; 2; 3; 4]%Z.

(** What the feedback area shows.  The whole strength block is rendered
    only under [password && (...)]; inside it,
    [strength.feedback && strength.feedback.length > 0 ? tips
       : password && !isAnalyzing && allSecure]. *)
Inductive panel :=
| Hidden
| Vulnerabilities (tips : list string)
| AllSystemsSecure
| Blank.

Definition feedbackPanel (h : hooks) : panel :=
  if JS.truthy (password h) then
    match feedback (strength h) with
    | [] =>
        if JS.truthy (password h) && negb (isAnalyzing h)
        then AllSystemsSecure else Blank
    | tips => Vulnerabilities tips
    end
  else Hidden.

End CompactView.

(** ** Statements about runs *)

(** Unmounting runs the cleanup of the [[password]] effect,
    [() => clearTimeout(timer)]; these are the handles left live. *)
Definition afterCleanup (rt : runtime) : list timer :=
  clearTimeout (cleanup rt) (timers rt).

(** The requests of a log are at least 500 ms apart, in order. *)
Fixpoint spaced (cs : list (nat * string)) : Prop :=
  match cs with
  | [] => True
  | c :: rest => Forall (fun c' => fst c + 500 <= fst c') rest /\ spaced rest
  end.

(** A response the handlers can digest: it failed, or it names an error,
    or it carries the field the handler reads ([suggestions] for a check,
    [password] for a generation). *)
Definition digestible (e : event) : bool :=
  match e with
  | CheckSettled _ (Decoded data) =>
      JS.truthy (c_error data)
      || match c_suggestions data with Some _ => true | None => false end
  | GenerateSettled (Decoded data) =>
      JS.truthy (g_error data)
      || match g_password data with Some _ => true | None => false end
  | _ => true
  end.

(** Every draw of a pulse is a value of [Math.random()]. *)
Definition unit_pulse (p : Telemetry.pulse) : Prop :=
  match p with
  | Telemetry.StatsTick r1 r2 r3 r4 =>
      Telemetry.unit_draw r1 /\ Telemetry.unit_draw r2 /\
      Telemetry.unit_draw r3 /\ Telemetry.unit_draw r4
  | Telemetry.AttackTick r_index _ _ r_attempts r_blocked =>
      Telemetry.unit_draw r_index /\ Telemetry.unit_draw r_attempts /\
      Telemetry.unit_draw r_blocked
  | Telemetry.LiveTick draws r_index _ _ =>
      (forall k, Telemetry.unit_draw (draws k)) /\ Telemetry.unit_draw r_index
  end.

Definition isStatsTick (p : Telemetry.pulse) : bool :=
  match p with Telemetry.StatsTick _ _ _ _ => true | _ => false end.

Definition isAttackTick (p : Telemetry.pulse) : bool :=
  match p with Telemetry.AttackTick _ _ _ _ _ => true | _ => false end.

Definition isLiveTick (p : Telemetry.pulse) : bool :=
  match p with Telemetry.LiveTick _ _ _ _ => true | _ => false end.

(** The bookkeeping invariant of the request log: every request was
    issued in the past with a non-empty body, requests are 500 ms apart,
    a live timer is due at least 500 ms after every request, and every
    awaited position names a request. *)
Definition paced (rt : runtime) : Prop :=
  Forall (fun c => fst c <= now rt /\ snd c <> "") (checks rt) /\
  spaced (checks rt) /\
  Forall (fun t => Forall (fun c => fst c + 500 <= due t) (checks rt))
         (timers rt) /\
  Forall (fun i => i < List.length (checks rt)) (awaiting rt).

(** An updater that throws whatever the log is, or appends fixed lines. *)
Definition appending (updater : list string -> option (list string)) : Prop :=
  (forall prev, updater prev = None) \/
  (exists lines, forall prev, updater prev = Some (prev ++ lines)).

(** Every log updater of a batch is of that kind. *)
Definition appends_only (batch : list setter) : Prop :=
  Forall (fun c => match c with
                   | setTerminalLines updater => appending updater
                   | _ => True
                   end) batch.

(** * Theorems *)

(** ** Strings *)

Section Strings.

Lemma append_empty_r (s : string) : s +++ "" = s.
Proof. induction s as [|c s IH]; simpl; [reflexivity | now rewrite IH]. Qed.

Lemma append_assoc (a b c : string) : (a +++ b) +++ c = a +++ b +++ c.
Proof. induction a as [|x a IH]; simpl; [reflexivity | now rewrite IH]. Qed.

Lemma startsWith_spec (t s : string) :
  JS.startsWith s t = true <-> exists post, s = t +++ post.
Proof.
  revert s. induction t as [|b t IH]; intros s; simpl.
  - split; [intros _; now exists s | reflexivity].
  - destruct s as [|a s].
    + split; [discriminate | intros [post H]; discriminate].
    + rewrite andb_true_iff, Ascii.eqb_eq, IH. split.
      * intros [-> [post ->]]. now exists post.
      * intros [post H]. injection H as -> ->. split; [reflexivity | now exists post].
Qed.

Lemma includes_spec (s t : string) :
  JS.includes s t = true <-> exists pre post, s = pre +++ t +++ post.
Proof.
  induction s as [|a s IH]; simpl; rewrite orb_true_iff, startsWith_spec.
  - split.
    + intros [[post H] | H]; [now exists "", post | discriminate].
    + intros [pre [post H]]. left. destruct pre; [now exists post | discriminate].
  - rewrite IH. split.
    + intros [[post H] | [pre [post H]]].
      * now exists "", post.
      * exists (String a pre), post. simpl. now rewrite H.
    + intros [[|c pre] [post H]].
      * left. now exists post.
      * right. simpl in H. injection H as _ H. now exists pre, post.
Qed.

Lemma toLowerCase_app (a b : string) :
  JS.toLowerCase (a +++ b) = JS.toLowerCase a +++ JS.toLowerCase b.
Proof. induction a as [|c a IH]; simpl; [reflexivity | now rewrite IH]. Qed.

(** Lower-casing works code unit by code unit, so a split of the
    lower-cased text comes from a split of the text. *)
Lemma toLowerCase_split (x y p : string) :
  JS.toLowerCase p = x +++ y ->
  exists a b, p = a +++ b /\ JS.toLowerCase a = x /\ JS.toLowerCase b = y.
Proof.
  revert p. induction x as [|c x IH]; intros p H.
  - now exists "", p.
  - destruct p as [|d p]; simpl in H; [discriminate|].
    injection H as Hc H. destruct (IH _ H) as [a [b [-> [Ha Hb]]]].
    exists (String d a), b. simpl. now rewrite Hc, Ha, Hb.
Qed.

Lemma nat_of_ascii_inj (a b : ascii) :
  nat_of_ascii a = nat_of_ascii b -> a = b.
Proof.
  intros H. rewrite <- (ascii_nat_embedding a), <- (ascii_nat_embedding b).
  now rewrite H.
Qed.

Lemma lower_ascii_code (c : ascii) :
  nat_of_ascii (JS.lower_ascii c) =
  if (65 <=? nat_of_ascii c)%nat && (nat_of_ascii c <=? 90)%nat
  then nat_of_ascii c + 32 else nat_of_ascii c.
Proof.
  unfold JS.lower_ascii. cbv zeta.
  destruct ((65 <=? nat_of_ascii c)%nat && (nat_of_ascii c <=? 90)%nat) eqn:E;
    [|reflexivity].
  apply andb_true_iff in E. destruct E as [_ E]. apply Nat.leb_le in E.
  apply nat_ascii_embedding. lia.
Qed.

(** [toLowerCase] identifies two code units exactly when they are the
    same letter up to case. *)
Lemma lower_ascii_same_letter (a b : ascii) :
  JS.lower_ascii a = JS.lower_ascii b <-> same_letter a b.
Proof.
  unfold same_letter. split.
  - intros H. apply (f_equal nat_of_ascii) in H.
    rewrite !lower_ascii_code in H.
    destruct (Nat.leb_spec 65 (nat_of_ascii a)), (Nat.leb_spec (nat_of_ascii a) 90),
             (Nat.leb_spec 65 (nat_of_ascii b)), (Nat.leb_spec (nat_of_ascii b) 90);
      simpl in H;
      first [ left; apply nat_of_ascii_inj; lia
            | right; left; lia
            | right; right; lia ].
  - intros H. apply nat_of_ascii_inj. rewrite !lower_ascii_code.
    destruct H as [-> | [[Ha Hb] | [Hb Ha]]]; [reflexivity | |].
    + destruct (Nat.leb_spec 65 (nat_of_ascii a)), (Nat.leb_spec (nat_of_ascii a) 90),
               (Nat.leb_spec 65 (nat_of_ascii b)), (Nat.leb_spec (nat_of_ascii b) 90);
        simpl; lia.
    + destruct (Nat.leb_spec 65 (nat_of_ascii a)), (Nat.leb_spec (nat_of_ascii a) 90),
               (Nat.leb_spec 65 (nat_of_ascii b)), (Nat.leb_spec (nat_of_ascii b) 90);
        simpl; lia.
Qed.

Lemma toLowerCase_ci_equal (s t : string) :
  JS.toLowerCase s = JS.toLowerCase t <-> ci_equal s t.
Proof.
  revert t. induction s as [|a s IH]; intros [|b t]; simpl;
    try (split; [discriminate | contradiction]).
  - split; [intros _; exact I | reflexivity].
  - rewrite <- IH, <- lower_ascii_same_letter. split.
    + intros H. injection H as H1 H2. now split.
    + intros [H1 H2]. now rewrite H1, H2.
Qed.

Lemma isWeak_spec (p : string) :
  isWeak p = true <->
  exists w, In w weakPasswordDatabase /\ ci_substring w p.
Proof.
  unfold isWeak, JS.some. rewrite existsb_exists. split.
  - intros [w [Hin H]]. exists w. split; [assumption|].
    apply includes_spec in H. destruct H as [pre [post H]].
    apply toLowerCase_split in H. destruct H as [a [b [-> [_ H]]]].
    apply toLowerCase_split in H. destruct H as [m [c [-> [Hm _]]]].
    exists a, m, c. split; [reflexivity|]. now apply toLowerCase_ci_equal.
  - intros [w [Hin [pre [mid [post [-> Hm]]]]]]. exists w. split; [assumption|].
    apply toLowerCase_ci_equal in Hm. apply includes_spec.
    exists (JS.toLowerCase pre), (JS.toLowerCase post).
    now rewrite !toLowerCase_app, Hm.
Qed.

End Strings.

(** ** The crack-time label *)

Lemma eqb_empty_length (p : string) : (p =? "") = (String.length p =? 0)%nat.
Proof. destruct p; reflexivity. Qed.

(** C1 (as the code has it): the crack-time label is a function of the
    length of the password alone; the empty password gives ["Instant"],
    lengths 1 to 5 give ["< 1 second"], 6 and 7 ["< 1 minute"], 8 and 9
    ["< 1 hour"], 10 and 11 ["< 1 day"], 12 and 13 ["< 1 year"], and 14 or
    more ["> 100 years"]; every label is spelled with a space after the
    comparison sign. *)
Theorem calculateCrackTime_buckets (p : string) :
  let n := String.length p in
  (n = 0 -> calculateCrackTime p = "Instant") /\
  (1 <= n < 6 -> calculateCrackTime p = "< 1 second") /\
  (6 <= n < 8 -> calculateCrackTime p = "< 1 minute") /\
  (8 <= n < 10 -> calculateCrackTime p = "< 1 hour") /\
  (10 <= n < 12 -> calculateCrackTime p = "< 1 day") /\
  (12 <= n < 14 -> calculateCrackTime p = "< 1 year") /\
  (14 <= n -> calculateCrackTime p = "> 100 years") /\
  (forall q, String.length q = n -> calculateCrackTime q = calculateCrackTime p).
Proof.
  assert (E : forall q, calculateCrackTime q =
            let n := String.length q in
            if (n =? 0)%nat then "Instant"
            else if (n <? 6)%nat then "< 1 second"
            else if (n <? 8)%nat then "< 1 minute"
            else if (n <? 10)%nat then "< 1 hour"
            else if (n <? 12)%nat then "< 1 day"
            else if (n <? 14)%nat then "< 1 year"
            else "> 100 years").
  { intros q. unfold calculateCrackTime. now rewrite eqb_empty_length. }
  cbv zeta. repeat split; try (intros q Hq; rewrite !E; cbv zeta; now rewrite Hq);
    intros H; rewrite E; cbv zeta;
    repeat match goal with
           | |- context [(?a =? ?b)%nat] => destruct (Nat.eqb_spec a b); try lia
           | |- context [(?a <? ?b)%nat] => destruct (Nat.ltb_spec a b); try lia
           end; reflexivity.
Qed.

(** The boundary values named by the specification. *)
Lemma calculateCrackTime_buckets_witness :
  calculateCrackTime "abcdefgh" = "< 1 hour" /\
  calculateCrackTime "abcdef" = "< 1 minute" /\
  calculateCrackTime "abcdefg" = "< 1 minute".
Proof.
  split; [| split].
  - apply (calculateCrackTime_buckets "abcdefgh"). simpl. lia.
  - apply (calculateCrackTime_buckets "abcdef"). simpl. lia.
  - apply (calculateCrackTime_buckets "abcdefg"). simpl. lia.
Defined.

(** C1 as worded fails on the spelling of the labels: five characters do
    not give ["<1 second"]. *)
Lemma calculateCrackTime_label_spelling :
  calculateCrackTime "abcde" <> "<1 second".
Proof. discriminate. Qed.

(** ** The telemetry feeds *)

Section TelemetryFacts.

Import Telemetry.
Local Open Scope Q_scope.
Local Open Scope Z_scope.

Lemma floorScaled_range (r : Q) (n : Z) :
  0 < n -> unit_draw r -> 0 <= floorScaled r n <= n - 1.
Proof.
  intros Hn [H0 H1]. unfold floorScaled. split.
  - change 0 with (Qfloor (inject_Z 0)). apply Qfloor_resp_le.
    apply Qmult_le_0_compat; [assumption|].
    change (inject_Z 0 <= inject_Z n)%Q. rewrite <- Zle_Qle. lia.
  - enough (Qfloor (r * inject_Z n) < n) by lia.
    rewrite Zlt_Qlt. eapply Qle_lt_trans; [apply Qfloor_le|].
    rewrite <- (Qmult_1_l (inject_Z n)) at 2.
    apply Qmult_lt_compat_r; [|assumption].
    change (inject_Z 0 < inject_Z n)%Q. rewrite <- Zlt_Qlt. assumption.
Qed.

(** Every value of the range is the floor of some draw. *)
Lemma floorScaled_attains (n k : Z) :
  0 <= k < n -> exists r, unit_draw r /\ floorScaled r n = k.
Proof.
  intros H. destruct n as [|p|p]; try lia.
  exists (k # p). split.
  - split; [unfold Qle | unfold Qlt]; simpl; lia.
  - unfold floorScaled, Qfloor. simpl.
    rewrite Pos.mul_1_r. apply Z.div_mul. discriminate.
Qed.

Lemma feed_snoc (ps : list pulse) (p : pulse) :
  feed (ps ++ [p]) = onPulse (feed ps) p.
Proof. unfold feed. now rewrite fold_left_app. Qed.

Lemma firstn_cons_firstn {A} (n : nat) (a : A) (l : list A) :
  firstn (S n) (a :: firstn (S n) l) = firstn (S n) (a :: l).
Proof.
  rewrite !firstn_cons, firstn_firstn. f_equal. f_equal. lia.
Qed.

Lemma firstn_evicts_last {A} (n : nat) (a : A) (l : list A) :
  (List.length l <= S n)%nat ->
  firstn (S n) (a :: l) =
  a :: (if (List.length l <? S n)%nat then l else removelast l).
Proof.
  intros H. rewrite firstn_cons. f_equal.
  destruct (Nat.ltb_spec (List.length l) (S n)).
  - apply firstn_all2. lia.
  - rewrite removelast_firstn_len. f_equal. lia.
Qed.

Lemma attackData_feed (ps : list pulse) :
  attackData (feed ps) = firstn 10 (rev (attacksCreated ps)).
Proof.
  induction ps as [|p ps IH] using rev_ind; [reflexivity|].
  rewrite feed_snoc. unfold attacksCreated in *. rewrite flat_map_app, rev_app_distr.
  destruct p; cbn [onPulse attackData flat_map rev app]; try assumption.
  unfold attackUpdater, JS.slice0. rewrite IH. apply firstn_cons_firstn.
Qed.

Lemma liveChecks_feed (ps : list pulse) :
  liveChecks (feed ps) = firstn 5 (rev (checksCreated ps)).
Proof.
  induction ps as [|p ps IH] using rev_ind; [reflexivity|].
  rewrite feed_snoc. unfold checksCreated in *. rewrite flat_map_app, rev_app_distr.
  destruct p; cbn [onPulse liveChecks flat_map rev app]; try assumption.
  unfold liveUpdater, JS.slice0. rewrite IH. apply firstn_cons_firstn.
Qed.

(** C8: in every state of a run the attack buffer holds at most 10
    events and the live-check buffer at most 5; each buffer is the most
    recent events, newest first; an insertion puts the new event in
    front and, when the buffer is full, drops exactly the last (oldest)
    element, the others keeping their order. *)
Theorem buffers_capped_newest_first (ps : list pulse) :
  (List.length (attackData (feed ps)) <= 10)%nat /\
  (List.length (liveChecks (feed ps)) <= 5)%nat /\
  attackData (feed ps) = firstn 10 (rev (attacksCreated ps)) /\
  liveChecks (feed ps) = firstn 5 (rev (checksCreated ps)) /\
  (forall r_index date_now time r_attempts r_blocked,
      attackData
        (feed (ps ++ [AttackTick r_index date_now time r_attempts r_blocked])) =
      newAttack r_index date_now time r_attempts r_blocked ::
      (if (List.length (attackData (feed ps)) <? 10)%nat
       then attackData (feed ps)
       else removelast (attackData (feed ps)))) /\
  (forall draws r_index date_now time,
      liveChecks (feed (ps ++ [LiveTick draws r_index date_now time])) =
      newCheck draws r_index date_now time ::
      (if (List.length (liveChecks (feed ps)) <? 5)%nat
       then liveChecks (feed ps)
       else removelast (liveChecks (feed ps)))).
Proof.
  assert (Ha : (List.length (attackData (feed ps)) <= 10)%nat)
    by (rewrite attackData_feed; apply firstn_le_length).
  assert (Hl : (List.length (liveChecks (feed ps)) <= 5)%nat)
    by (rewrite liveChecks_feed; apply firstn_le_length).
  repeat split; try assumption.
  - apply attackData_feed.
  - apply liveChecks_feed.
  - intros. rewrite feed_snoc. cbn [onPulse attackData].
    unfold attackUpdater, JS.slice0. now apply firstn_evicts_last.
  - intros. rewrite feed_snoc. cbn [onPulse liveChecks].
    unfold liveUpdater, JS.slice0. now apply firstn_evicts_last.
Qed.

(** C9: across a tick of the global-stats interval [attacksToday] and
    [passwordsCompromised] grow by a draw from 0..999 and 0..49, so never
    decrease, while [activeThreats] and [weakPasswords] are set from
    their draws alone, into 1000..1499 and 5000000..5999999, whatever
    they were before; each value of those ranges can come out, so the
    two resampled counters can go up as well as down. *)
Theorem stats_tick_accumulates_and_resamples
        (ps : list pulse) (r1 r2 r3 r4 : Q) :
  unit_draw r1 -> unit_draw r2 -> unit_draw r3 -> unit_draw r4 ->
  let prev := globalStats (feed ps) in
  let next := globalStats (feed (ps ++ [StatsTick r1 r2 r3 r4])) in
  (attacksToday prev <= attacksToday next <= attacksToday prev + 999) /\
  (passwordsCompromised prev <= passwordsCompromised next
     <= passwordsCompromised prev + 49) /\
  (activeThreats next = floorScaled r3 500 + 1000
     /\ 1000 <= activeThreats next <= 1499) /\
  (weakPasswords next = floorScaled r4 1000000 + 5000000
     /\ 5000000 <= weakPasswords next <= 5999999) /\
  (forall v, 1000 <= v <= 1499 ->
     exists r, unit_draw r /\
       activeThreats (statsUpdater r1 r2 r r4 prev) = v) /\
  (forall v, 5000000 <= v <= 5999999 ->
     exists r, unit_draw r /\
       weakPasswords (statsUpdater r1 r2 r3 r prev) = v) /\
  (forall k, 0 <= k <= 999 ->
     exists r, unit_draw r /\
       attacksToday (statsUpdater r r2 r3 r4 prev) = attacksToday prev + k) /\
  (forall k, 0 <= k <= 49 ->
     exists r, unit_draw r /\
       passwordsCompromised (statsUpdater r1 r r3 r4 prev)
       = passwordsCompromised prev + k).
Proof.
  intros H1 H2 H3 H4 prev next. subst next. rewrite feed_snoc. simpl.
  fold prev.
  pose proof (floorScaled_range r1 1000 ltac:(lia) H1).
  pose proof (floorScaled_range r2 50 ltac:(lia) H2).
  pose proof (floorScaled_range r3 500 ltac:(lia) H3).
  pose proof (floorScaled_range r4 1000000 ltac:(lia) H4).
  repeat split; try lia.
  - intros v Hv. destruct (floorScaled_attains 500 (v - 1000)) as [r [Hr E]]; [lia|].
    exists r. split; [assumption | rewrite E; lia].
  - intros v Hv.
    destruct (floorScaled_attains 1000000 (v - 5000000)) as [r [Hr E]]; [lia|].
    exists r. split; [assumption | rewrite E; lia].
  - intros k Hk. destruct (floorScaled_attains 1000 k) as [r [Hr E]]; [lia|].
    exists r. split; [assumption | now rewrite E].
  - intros k Hk. destruct (floorScaled_attains 50 k) as [r [Hr E]]; [lia|].
    exists r. split; [assumption | now rewrite E].
Qed.

Lemma unit_draw_half : unit_draw (1 # 2).
Proof. split; [unfold Qle | unfold Qlt]; simpl; lia. Qed.

(** One tick after mounting, with all four draws at one half. *)
Lemma stats_tick_accumulates_and_resamples_witness :
  let next :=
    globalStats (feed ([] ++ [StatsTick (1 # 2) (1 # 2) (1 # 2) (1 # 2)])) in
  0 <= attacksToday next <= 0 + 999 /\ 1000 <= activeThreats next <= 1499.
Proof.
  pose proof (stats_tick_accumulates_and_resamples
                [] (1 # 2) (1 # 2) (1 # 2) (1 # 2)
                unit_draw_half unit_draw_half unit_draw_half unit_draw_half)
    as H.
  cbv zeta in *. destruct H as [Ha [_ [[_ Ht] _]]].
  split; [exact Ha | exact Ht].
Defined.

(** A run in which [activeThreats] first rises and then falls while
    [attacksToday] keeps growing. *)
Example stats_rise_and_fall :
  let s1 := feed [StatsTick (1 # 2) (1 # 2) (1 # 10) (1 # 2)] in
  let s2 := feed [StatsTick (1 # 2) (1 # 2) (1 # 10) (1 # 2);
                  StatsTick (1 # 2) (1 # 2) (9 # 10) (1 # 10)] in
  let s3 := feed [StatsTick (1 # 2) (1 # 2) (1 # 10) (1 # 2);
                  StatsTick (1 # 2) (1 # 2) (9 # 10) (1 # 10);
                  StatsTick (1 # 2) (1 # 2) (1 # 5) (9 # 10)] in
  activeThreats (globalStats s1) < activeThreats (globalStats s2) /\
  activeThreats (globalStats s3) < activeThreats (globalStats s2) /\
  weakPasswords (globalStats s2) < weakPasswords (globalStats s1) /\
  weakPasswords (globalStats s2) < weakPasswords (globalStats s3) /\
  attacksToday (globalStats s1) <= attacksToday (globalStats s2)
    <= attacksToday (globalStats s3).
Proof. vm_compute. repeat split; discriminate. Qed.

End TelemetryFacts.

(** ** Rendering and effects *)

Section Rendering.

Lemma same_value_eq (a b : option string) : same_value a b = true <-> a = b.
Proof.
  destruct a as [x|], b as [y|]; simpl; try (split; congruence).
  rewrite String.eqb_eq. split; congruence.
Qed.

Lemma same_value_refl (a : option string) : same_value a a = true.
Proof. now apply same_value_eq. Qed.

Lemma same_value_neq (a b : option string) : a <> b -> same_value a b = false.
Proof.
  intros H. destruct (same_value a b) eqn:E; [|reflexivity].
  now apply same_value_eq in E.
Qed.

Lemma logged_nil (h : hooks) : logged h [] = h.
Proof. destruct h. unfold logged. simpl. now rewrite app_nil_r. Qed.

Lemma render_append (h : hooks) (lines : list string) :
  render h [setTerminalLines (append lines)] = Some (logged h lines).
Proof. reflexivity. Qed.

(** On both surfaces the visibility effect only appends to the log. *)
Lemma visibility_render (S : surface) (h : hooks) :
  shipped S ->
  exists lines, render h (visibilityEffect S h) = Some (logged h lines).
Proof.
  intros [-> | ->]; simpl.
  - exists []. now rewrite logged_nil.
  - unfold Compact.visibilityEffect.
    destruct (JS.truthy (password h)), (showPassword h); simpl;
      try (eexists; reflexivity).
    + exists []. now rewrite logged_nil.
    + exists []. now rewrite logged_nil.
Qed.

(** A batch that renders to [h] commits: the debounce effect re-runs
    when the password text changed, and the log may grow by the lines
    of the visibility effect. *)
Lemma commit_ok (S : surface) (rt : runtime) (batch : list setter) (h : hooks) :
  shipped S ->
  render (ui rt) batch = Some h ->
  exists lines,
    commit S rt batch = Some (with_ui (rearmed rt h) (logged h lines)).
Proof.
  intros HS Hr. unfold commit, rearmed. rewrite Hr.
  destruct (same_value (password (ui rt)) (password h)) eqn:Epw; simpl negb.
  - destruct (Bool.eqb (showPassword (ui rt)) (showPassword h)); simpl.
    + exists []. now rewrite logged_nil.
    + destruct (visibility_render S h HS) as [lines ->]. now exists lines.
  - simpl. destruct (visibility_render S h HS) as [lines ->]. now exists lines.
Qed.

Lemma commit_render (S : surface) (rt rt' : runtime) (batch : list setter) :
  shipped S ->
  commit S rt batch = Some rt' ->
  exists h lines,
    render (ui rt) batch = Some h /\
    rt' = with_ui (rearmed rt h) (logged h lines).
Proof.
  intros HS Hc. destruct (render (ui rt) batch) as [h|] eqn:Hr.
  - destruct (commit_ok S rt batch h HS Hr) as [lines E].
    exists h, lines. split; [reflexivity | congruence].
  - unfold commit in Hc. now rewrite Hr in Hc.
Qed.

(** What a commit leaves alone. *)
Lemma rearmed_frame (rt : runtime) (h h' : hooks) :
  let rt' := with_ui (rearmed rt h) h' in
  ui rt' = h' /\ now rt' = now rt /\ checks rt' = checks rt /\
  awaiting rt' = awaiting rt /\ generating rt' = generating rt.
Proof.
  unfold rearmed.
  destruct (same_value (password (ui rt)) (password h)); simpl; tauto.
Qed.

Lemma rearmed_same (rt : runtime) (h h' : hooks) :
  password h = password (ui rt) ->
  with_ui (rearmed rt h) h' = with_ui rt h'.
Proof.
  intros E. unfold rearmed. now rewrite E, same_value_refl.
Qed.

Lemma rearmed_changed (rt : runtime) (h h' : hooks) :
  password (ui rt) <> password h ->
  with_ui (rearmed rt h) h' =
  mkRuntime h'
            (clearTimeout (cleanup rt) (timers rt)
               ++ [mkTimer (nextHandle rt) (now rt + 500) (password h)])
            (S (nextHandle rt)) (nextHandle rt) (now rt)
            (checks rt) (awaiting rt) (generating rt).
Proof.
  intros E. unfold rearmed. now rewrite (same_value_neq _ _ E).
Qed.

Lemma clearTimeout_armed (rt : runtime) :
  armed rt -> clearTimeout (cleanup rt) (timers rt) = [].
Proof.
  intros [-> | [d [-> _]]]; [reflexivity|].
  unfold clearTimeout. simpl. now rewrite Nat.eqb_refl.
Qed.

(** The invariant survives every commit. *)
Lemma rearmed_armed (rt : runtime) (h : hooks) (lines : list string) :
  armed rt -> armed (with_ui (rearmed rt h) (logged h lines)).
Proof.
  intros Ha. unfold rearmed.
  destruct (same_value (password (ui rt)) (password h)) eqn:E.
  - apply same_value_eq in E. destruct Ha as [Ht | [d [Ht Hd]]].
    + now left.
    + right. exists d. simpl. rewrite <- E. split; assumption.
  - right. exists (now rt + 500). simpl.
    rewrite (clearTimeout_armed rt Ha). simpl. split; [reflexivity | lia].
Qed.

Lemma commit_armed (S : surface) (rt rt' : runtime) (batch : list setter) :
  shipped S -> armed rt -> commit S rt batch = Some rt' -> armed rt'.
Proof.
  intros HS Ha Hc.
  destruct (commit_render S rt rt' batch HS Hc) as [h [lines [_ ->]]].
  now apply rearmed_armed.
Qed.

End Rendering.

(** ** Timers and the debounce invariant *)

Section Debounce.

Variable S : surface.
Hypothesis HS : shipped S.

(** A batch that leaves the password text and the visibility flag alone
    re-runs no effect. *)
Lemma commit_quiet (rt : runtime) (batch : list setter) (h : hooks) :
  render (ui rt) batch = Some h ->
  password h = password (ui rt) ->
  showPassword h = showPassword (ui rt) ->
  commit S rt batch = Some (with_ui rt h).
Proof.
  intros Hr Hp Hs. unfold commit.
  now rewrite Hr, Hp, Hs, same_value_refl, eqb_reflx.
Qed.

(** The setter calls of [checkPasswordStrength] before the request:
    the analyzing flag is raised and the log grows. *)
Lemma before_check_render (pwd : string) (h : hooks) :
  exists lines,
    render h (before (checkPasswordStrength S pwd)) =
    Some (mkHooks (password h) (strength h) (generated h) (showPassword h)
                  (terminalLines h ++ lines) true).
Proof.
  destruct HS as [-> | ->]; simpl.
  - destruct (isWeak pwd); simpl; rewrite <- ?app_assoc; eexists; reflexivity.
  - eexists; reflexivity.
Qed.

Lemma issueCheck_ok (rt : runtime) (pwd : string) :
  exists lines,
    issueCheck S rt pwd =
    Some (mkRuntime
            (mkHooks (password (ui rt)) (strength (ui rt)) (generated (ui rt))
                     (showPassword (ui rt)) (terminalLines (ui rt) ++ lines)
                     true)
            (timers rt) (nextHandle rt) (cleanup rt) (now rt)
            (checks rt ++ [(now rt, pwd)])
            (awaiting rt ++ [List.length (checks rt)]) (generating rt)).
Proof.
  destruct (before_check_render pwd (ui rt)) as [lines Hr].
  exists lines. unfold issueCheck.
  now rewrite (commit_quiet rt _ _ Hr eq_refl eq_refl).
Qed.

(** The [else] branch of the debounce callback resets the strength. *)
Lemma cleared_render (h : hooks) :
  exists lines,
    render h (passwordCleared S) =
    Some (mkHooks (password h) (mkStrength (Some 0%Z) []) (generated h)
                  (showPassword h) (terminalLines h ++ lines) (isAnalyzing h))
    /\ (S = Dashboard.ui -> lines = [])
    /\ (S = Compact.ui -> lines = ["$ PASSWORD CLEARED"]).
Proof.
  destruct HS as [-> | ->]; simpl.
  - exists []. rewrite app_nil_r. repeat split. discriminate.
  - eexists. repeat split. discriminate.
Qed.

Lemma debounceCallback_armed (rt rt' : runtime) (v : option string) :
  armed rt -> debounceCallback S rt v = Some rt' -> armed rt'.
Proof.
  intros Ha H. unfold debounceCallback in H.
  assert (Hi : forall pwd, issueCheck S rt pwd = Some rt' -> armed rt').
  { intros pwd Hi. destruct (issueCheck_ok rt pwd) as [lines E].
    rewrite E in Hi. injection Hi as <-. exact Ha. }
  destruct v as [pwd|]; [destruct (negb (pwd =? ""))|];
    eauto using commit_armed.
Qed.

Lemma filter_not_due (n : nat) (ts : list timer) :
  Forall (fun t => n < due t) ts ->
  filter (fun t => (due t <=? n)%nat) ts = [].
Proof.
  induction 1 as [|t ts Ht _ IH]; simpl; [reflexivity|].
  destruct (Nat.leb_spec (due t) n); [lia | assumption].
Qed.

(** A millisecond in which no timer is due only moves the clock. *)
Lemma tick_quiet (rt : runtime) :
  Forall (fun t => Datatypes.S (now rt) < due t) (timers rt) ->
  tick S rt = Some (elapse rt 1).
Proof.
  intros H. unfold tick. simpl. rewrite (filter_not_due _ _ H). simpl.
  unfold elapse. now rewrite Nat.add_1_r.
Qed.

(** The millisecond in which the only live timer is due runs its
    callback, the timer being gone. *)
Lemma tick_fire (rt : runtime) (t : timer) :
  timers rt = [t] -> due t = Datatypes.S (now rt) ->
  tick S rt =
  debounceCallback S
    (mkRuntime (ui rt) [] (nextHandle rt) (cleanup rt) (Datatypes.S (now rt))
               (checks rt) (awaiting rt) (generating rt))
    (captured t).
Proof.
  intros Ht Hd. unfold tick. simpl. rewrite Ht. simpl.
  rewrite Hd, Nat.leb_refl. simpl. unfold fire, clearTimeout. simpl.
  rewrite Nat.eqb_refl. simpl.
  now destruct (debounceCallback S _ (captured t)).
Qed.

Lemma tick_armed (rt rt' : runtime) :
  armed rt -> tick S rt = Some rt' -> armed rt'.
Proof.
  intros Ha H. destruct Ha as [Ht | [d [Ht Hd]]].
  - rewrite tick_quiet in H by (rewrite Ht; constructor).
    injection H as <-. now left.
  - destruct (Nat.eq_dec d (Datatypes.S (now rt))) as [E | E].
    + rewrite (tick_fire rt _ Ht E) in H.
      eapply debounceCallback_armed; [|exact H]. now left.
    + rewrite tick_quiet in H
        by (rewrite Ht; repeat constructor; simpl; lia).
      injection H as <-. right. exists d. simpl. split; [assumption | lia].
Qed.

(** Every step of the component keeps the debounce invariant. *)
Lemma step_armed (rt rt' : runtime) (e : event) :
  armed rt -> step S rt e = Some rt' -> armed rt'.
Proof.
  intros Ha H. destruct e; simpl in H.
  - eauto using commit_armed.
  - eauto using commit_armed.
  - destruct (isAnalyzing (ui rt)); [now injection H as <-|].
    destruct (commit S rt _) as [rt1|] eqn:E; [|discriminate].
    injection H as <-. apply (commit_armed S rt rt1 _ HS Ha) in E. exact E.
  - destruct (copyToClipboard S); [|now injection H as <-].
    destruct (JS.truthy _); [|now injection H as <-].
    eauto using commit_armed.
  - eauto using tick_armed.
  - destruct (existsb _ _); [|now injection H as <-].
    destruct (nth_error _ _) as [[? pwd]|]; [|now injection H as <-].
    eapply commit_armed; [exact HS | | exact H]. exact Ha.
  - destruct (generating rt); [now injection H as <-|].
    eapply commit_armed; [exact HS | | exact H]. exact Ha.
Qed.

Lemma run_armed (es : list event) (rt rt' : runtime) :
  armed rt -> run S rt es = Some rt' -> armed rt'.
Proof.
  revert rt. induction es as [|e es IH]; intros rt Ha H; simpl in H.
  - now injection H as <-.
  - destruct (step S rt e) as [rt1|] eqn:E; [|discriminate].
    eauto using step_armed.
Qed.

Lemma mounted_armed : armed mounted.
Proof. right. exists 500. simpl. split; [reflexivity | lia]. Qed.

Lemma reachable_armed (rt : runtime) : reachable S rt -> armed rt.
Proof. intros [es H]. eapply run_armed; [apply mounted_armed | exact H]. Qed.

Lemma run_app (es es' : list event) (rt : runtime) :
  run S rt (es ++ es') =
  match run S rt es with
  | Some rt' => run S rt' es'
  | None => None
  end.
Proof.
  revert rt. induction es as [|e es IH]; intros rt; simpl; [reflexivity|].
  destruct (step S rt e); [apply IH | reflexivity].
Qed.

Lemma reachable_run (rt rt' : runtime) (es : list event) :
  reachable S rt -> run S rt es = Some rt' -> reachable S rt'.
Proof.
  intros [es0 H0] H. exists (es0 ++ es). now rewrite run_app, H0.
Qed.

End Debounce.

(** ** The debounce cycle *)

Section Cycle.

Variable S : surface.
Hypothesis HS : shipped S.

Lemma elapse_0 (rt : runtime) : elapse rt 0 = rt.
Proof. destruct rt. unfold elapse. simpl. now rewrite Nat.add_0_r. Qed.

(** An edit that changes the text clears the pending timer and starts a
    fresh one, due 500 ms later and closing over the new text. *)
Lemma input_rearms (rt : runtime) (v : string) :
  armed rt -> password (ui rt) <> Some v ->
  exists lines,
    step S rt (Input v) =
    Some (mkRuntime
            (mkHooks (Some v) (strength (ui rt)) (generated (ui rt))
                     (showPassword (ui rt)) (terminalLines (ui rt) ++ lines)
                     (isAnalyzing (ui rt)))
            [mkTimer (nextHandle rt) (now rt + 500) (Some v)]
            (Datatypes.S (nextHandle rt)) (nextHandle rt) (now rt)
            (checks rt) (awaiting rt) (generating rt)).
Proof.
  intros Ha Hv. simpl.
  destruct (commit_ok S rt [setPassword (Some v)] _ HS eq_refl) as [lines ->].
  exists lines. rewrite rearmed_changed by exact Hv.
  now rewrite (clearTimeout_armed rt Ha).
Qed.

(** While the only live timer is not due, time just passes. *)
Lemma wait_quiet (n : nat) (rt : runtime) (t : timer) :
  timers rt = [t] -> now rt + n < due t ->
  run S rt (wait n) = Some (elapse rt n).
Proof.
  revert rt. induction n as [|n IH]; intros rt Ht Hd.
  - simpl. now rewrite elapse_0.
  - change (wait (Datatypes.S n)) with (Tick :: wait n). cbn [run step].
    rewrite tick_quiet by (rewrite Ht; repeat constructor; lia).
    rewrite (IH (elapse rt 1)) by (simpl; assumption || lia).
    unfold elapse. simpl. do 2 f_equal. lia.
Qed.







End Cycle.

(** ** Claims on the analysis controller *)

(** C2 (as the code has it): when the debounce timer fires while the
    password text is empty, the strength is reset to score 0 with no
    feedback and no request is issued; the compact surface also appends
    the line ["$ PASSWORD CLEARED"] to the log, the dashboard surface
    appends nothing. *)
Theorem debounce_on_empty_text (S : surface) (rt : runtime) :
  shipped S -> reachable S rt ->
  JS.truthy (password (ui rt)) = false ->
  (exists t, In t (timers rt) /\ due t = Datatypes.S (now rt)) ->
  exists rt',
    step S rt Tick = Some rt' /\
    strength (ui rt') = mkStrength (Some 0%Z) [] /\
    checks rt' = checks rt /\ awaiting rt' = awaiting rt /\
    timers rt' = [] /\
    (S = Dashboard.ui -> terminalLines (ui rt') = terminalLines (ui rt)) /\
    (S = Compact.ui ->
     terminalLines (ui rt') = terminalLines (ui rt) ++ ["$ PASSWORD CLEARED"]).
Proof.
  intros HS Hr Hp [t [Hin Hd]].
  destruct (reachable_armed S HS rt Hr) as [Ht | [d [Ht _]]];
    rewrite Ht in Hin; [destruct Hin|].
  destruct Hin as [<- | []]. cbn [due] in Hd.
  cbn [step]. rewrite (tick_fire S rt _ Ht Hd). cbn [captured].
  set (rt0 := mkRuntime _ _ _ _ _ _ _ _).
  assert (E : debounceCallback S rt0 (password (ui rt)) =
              commit S rt0 (passwordCleared S)).
  { unfold debounceCallback. destruct (password (ui rt)) as [pwd|]; simpl in Hp;
      [now rewrite Hp | reflexivity]. }
  rewrite E. destruct (cleared_render S HS (ui rt0)) as [lines [Hc [HD HC]]].
  rewrite (commit_quiet S rt0 _ _ Hc eq_refl eq_refl).
  eexists. split; [reflexivity|]. simpl.
  repeat split; intros ->.
  - rewrite (HD eq_refl). apply app_nil_r.
  - now rewrite (HC eq_refl).
Qed.

(** The first timer of the compact surface, 499 ms after mounting. *)
Lemma debounce_on_empty_text_witness :
  exists rt',
    step Compact.ui
         (mkRuntime initialHooks [mkTimer 0 500 (Some "")] 1 0 499 [] [] 0)
         Tick = Some rt' /\
    strength (ui rt') = mkStrength (Some 0%Z) [] /\
    checks rt' = [] /\ terminalLines (ui rt') = ["$ PASSWORD CLEARED"].
Proof.
  destruct (debounce_on_empty_text Compact.ui
              (mkRuntime initialHooks [mkTimer 0 500 (Some "")] 1 0 499 [] [] 0))
    as [rt' [H1 [H2 [H3 [_ [_ [_ H4]]]]]]].
  - right. reflexivity.
  - exists (wait 499). vm_compute. reflexivity.
  - reflexivity.
  - eexists. split; [left; reflexivity | reflexivity].
  - exists rt'. repeat split; try assumption. exact (H4 eq_refl).
Defined.

(** C2 as worded fails on the dashboard: its first timer fires on the
    empty text 500 ms after mounting and the log stays empty. *)
Lemma dashboard_clear_appends_nothing :
  exists rt',
    run Dashboard.ui mounted (wait 500) = Some rt' /\
    password (ui rt') = Some "" /\ timers rt' = [] /\
    strength (ui rt') = mkStrength (Some 0%Z) [] /\
    terminalLines (ui rt') = [] /\
    ~ (exists line, terminalLines (ui rt') = terminalLines initialHooks ++ [line]).
Proof.
  eexists. split; [vm_compute; reflexivity|]. simpl.
  repeat split. intros [line H]. discriminate.
Qed.




(** ** Responses of the scoring collaborator *)

Section CheckResponses.

Variable S : surface.
Hypothesis HS : shipped S.

(** The response of a request that is awaited resumes its handler. *)
Lemma check_settled_step (rt : runtime) (i t : nat) (pwd : string)
      (r : settled check_data) (h : hooks) :
  In i (awaiting rt) ->
  nth_error (checks rt) i = Some (t, pwd) ->
  render (ui rt) (after (checkPasswordStrength S pwd) r) = Some h ->
  password h = password (ui rt) ->
  showPassword h = showPassword (ui rt) ->
  step S rt (CheckSettled i r) =
  Some (mkRuntime h (timers rt) (nextHandle rt) (cleanup rt) (now rt)
                  (checks rt)
                  (filter (fun j => negb (j =? i)%nat) (awaiting rt))
                  (generating rt)).
Proof.
  intros Hi Hn Hr Hp Hs. cbn [step].
  assert (E : existsb (Nat.eqb i) (awaiting rt) = true).
  { apply existsb_exists. exists i. split; [assumption | apply Nat.eqb_refl]. }
  rewrite E, Hn. now erewrite commit_quiet by eassumption.
Qed.

(** An error-free response with its suggestions: the strength is set
    from the response and the analyzing flag is lowered. *)
Lemma after_check_success (pwd : string) (data : check_data)
      (suggestions : list string) (h : hooks) :
  JS.truthy (c_error data) = false ->
  c_suggestions data = Some suggestions ->
  exists lines,
    render h (after (checkPasswordStrength S pwd) (Decoded data)) =
    Some (mkHooks (password h) (mkStrength (c_score data) suggestions)
                  (generated h) (showPassword h) (terminalLines h ++ lines)
                  false).
Proof.
  intros He Hs. destruct HS as [-> | ->]; simpl; rewrite He; simpl;
    rewrite Hs; simpl; eexists; reflexivity.
Qed.

(** A failed cycle, by exception or by error field: one failure line,
    the strength as it was, the analyzing flag lowered. *)
Lemma after_check_failure (pwd : string) (r : settled check_data) (h : hooks) :
  match r with
  | Thrown _ => True
  | Decoded data => JS.truthy (c_error data) = true
  end ->
  exists line,
    render h (after (checkPasswordStrength S pwd) r) =
    Some (mkHooks (password h) (strength h) (generated h) (showPassword h)
                  (terminalLines h ++ [line]) false).
Proof.
  intros Hr. destruct HS as [-> | ->], r as [message | data]; simpl;
    rewrite ?Hr; simpl; eexists; reflexivity.
Qed.

Lemma failed_cycle_keeps_strength (rt : runtime) (i t : nat) (pwd : string)
      (r : settled check_data) :
  In i (awaiting rt) ->
  nth_error (checks rt) i = Some (t, pwd) ->
  match r with
  | Thrown _ => True
  | Decoded data => JS.truthy (c_error data) = true
  end ->
  exists rt' line,
    step S rt (CheckSettled i r) = Some rt' /\
    strength (ui rt') = strength (ui rt) /\
    terminalLines (ui rt') = terminalLines (ui rt) ++ [line] /\
    isAnalyzing (ui rt') = false.
Proof.
  intros Hi Hn Hr.
  destruct (after_check_failure pwd r (ui rt) Hr) as [line E].
  eexists. exists line.
  rewrite (check_settled_step rt i t pwd r _ Hi Hn E eq_refl eq_refl).
  repeat split.
Qed.

End CheckResponses.

(** C3 at the failing input: a response [{score: 2, strength: "FAIR"}]
    without a suggestions array passes the error guard, so the handler
    calls [setStrength] with the new score before the log updater reads
    [data.suggestions.slice]; that updater throws in every log state.  On
    either surface the cycle for ["abc"] therefore sets a new strength, logs
    no failure line, and the render faults. *)
Theorem missing_suggestions_sets_strength_then_faults :
  let data := mkCheck None (Some 2%Z) (Some "FAIR") None in
  (exists f,
      after (Dashboard.checkPasswordStrength "abc") (Decoded data) =
      [ setStrength (mkStrength (Some 2%Z) []); setTerminalLines f;
        setIsAnalyzing false ] /\ forall prev, f prev = None) /\
  (exists f,
      after (Compact.checkPasswordStrength "abc") (Decoded data) =
      [ setStrength (mkStrength (Some 2%Z) []); setTerminalLines f;
        setIsAnalyzing false ] /\ forall prev, f prev = None) /\
  (exists rt,
      run Dashboard.ui mounted (Input "abc" :: wait 500) = Some rt /\
      strength (ui rt) = mkStrength (Some 0%Z) [] /\ awaiting rt = [0] /\
      step Dashboard.ui rt (CheckSettled 0 (Decoded data)) = None) /\
  (exists rt,
      run Compact.ui mounted (Input "abc" :: wait 500) = Some rt /\
      strength (ui rt) = mkStrength (Some 0%Z) [] /\ awaiting rt = [0] /\
      step Compact.ui rt (CheckSettled 0 (Decoded data)) = None).
Proof.
  cbv zeta. split; [|split; [|split]].
  - eexists. split; [reflexivity | reflexivity].
  - eexists. split; [reflexivity | reflexivity].
  - eexists. split; [vm_compute; reflexivity|]. repeat split.
  - eexists. split; [vm_compute; reflexivity|]. repeat split.
Qed.

(** C4 (as the code has it): an error-free response is stored with the
    score exactly as received, without clamping; the displayed label is
    the entry of the fixed table at the score, and ["CRITICAL"] for every
    score outside 0..4 and for a missing score. *)
Theorem score_stored_as_received
        (S : surface) (rt : runtime) (i t : nat) (pwd : string)
        (data : check_data) (suggestions : list string) :
  shipped S ->
  In i (awaiting rt) ->
  nth_error (checks rt) i = Some (t, pwd) ->
  JS.truthy (c_error data) = false ->
  c_suggestions data = Some suggestions ->
  (exists rt',
      step S rt (CheckSettled i (Decoded data)) = Some rt' /\
      strength (ui rt') = mkStrength (c_score data) suggestions) /\
  (forall f,
      currentStrength (mkStrength (Some 0%Z) f) = "CRITICAL" /\
      currentStrength (mkStrength (Some 1%Z) f) = "WEAK" /\
      currentStrength (mkStrength (Some 2%Z) f) = "FAIR" /\
      currentStrength (mkStrength (Some 3%Z) f) = "STRONG" /\
      currentStrength (mkStrength (Some 4%Z) f) = "PERFECT" /\
      currentStrength (mkStrength None f) = "CRITICAL") /\
  (forall z f, (z < 0 \/ 4 < z)%Z ->
      currentStrength (mkStrength (Some z) f) = "CRITICAL").
Proof.
  intros HS Hi Hn He Hs. split; [|split].
  - destruct (after_check_success S HS pwd data suggestions (ui rt) He Hs)
      as [lines E].
    eexists. split.
    + exact (check_settled_step S rt i t pwd _ _ Hi Hn E eq_refl eq_refl).
    + reflexivity.
  - intros f. repeat split.
  - intros z f Hz. unfold currentStrength, label_at. cbn [score].
    destruct (Z.ltb_spec z 0); [reflexivity|].
    assert (E : exists k, Z.to_nat z = 5 + k) by (exists (Z.to_nat z - 5); lia).
    destruct E as [k ->]. destruct k; reflexivity.
Qed.

(** A response with score 3 for the one request in flight. *)
Lemma score_stored_as_received_witness :
  exists rt',
    step Dashboard.ui (mkRuntime initialHooks [] 1 0 0 [(0, "abc")] [0] 0)
         (CheckSettled 0 (Decoded (mkCheck None (Some 3%Z) (Some "STRONG") (Some []))))
    = Some rt' /\
    strength (ui rt') = mkStrength (Some 3%Z) [].
Proof.
  refine (proj1 (score_stored_as_received
                   Dashboard.ui (mkRuntime initialHooks [] 1 0 0 [(0, "abc")] [0] 0)
                   0 0 "abc" (mkCheck None (Some 3%Z) (Some "STRONG") (Some []))
                   [] _ _ _ _ _)).
  - left. reflexivity.
  - left. reflexivity.
  - reflexivity.
  - reflexivity.
  - reflexivity.
Defined.

(** C4 as worded fails on the clamp: a response with score 7 leaves 7 in
    the strength hook. *)
Lemma score_seven_is_not_clamped :
  exists rt',
    run Dashboard.ui mounted
        (Input "abc" :: wait 500 ++
         [CheckSettled 0 (Decoded (mkCheck None (Some 7%Z) (Some "PERFECT") (Some [])))])
    = Some rt' /\
    score (strength (ui rt')) = Some 7%Z /\
    ~ (0 <= 7 <= 4)%Z.
Proof. eexists. split; [vm_compute; reflexivity|]. split; [reflexivity | lia]. Qed.

(** ** The weak-pattern precheck *)

Lemma dashboard_issueCheck (rt : runtime) (pwd : string) :
  issueCheck Dashboard.ui rt pwd =
  Some (mkRuntime
          (mkHooks (password (ui rt)) (strength (ui rt)) (generated (ui rt))
                   (showPassword (ui rt))
                   (terminalLines (ui rt)
                      ++ ["$ ANALYZING: " +++
                          (if pwd =? "" then "EMPTY"
                           else JS.repeat "•" (String.length pwd))]
                      ++ (if isWeak pwd
                          then ["⚠ WARNING: Password found in breach database!"]
                          else []))
                   true)
          (timers rt) (nextHandle rt) (cleanup rt) (now rt)
          (checks rt ++ [(now rt, pwd)])
          (awaiting rt ++ [List.length (checks rt)]) (generating rt)).
Proof.
  unfold issueCheck. erewrite commit_quiet; [reflexivity | | reflexivity..].
  simpl. destruct (isWeak pwd); simpl; rewrite <- ?app_assoc; reflexivity.
Qed.

Lemma compact_issueCheck (rt : runtime) (pwd : string) :
  issueCheck Compact.ui rt pwd =
  Some (mkRuntime
          (mkHooks (password (ui rt)) (strength (ui rt)) (generated (ui rt))
                   (showPassword (ui rt))
                   (terminalLines (ui rt)
                      ++ ["$ ANALYZING PASSWORD: "
                          +++ (if pwd =? "" then "EMPTY" else "****")
                          +++ " → CONNECTED TO BACKEND"])
                   true)
          (timers rt) (nextHandle rt) (cleanup rt) (now rt)
          (checks rt ++ [(now rt, pwd)])
          (awaiting rt ++ [List.length (checks rt)]) (generating rt)).
Proof.
  unfold issueCheck. erewrite commit_quiet; reflexivity.
Qed.

(** C6 (as the code has it): the precheck answers true exactly when an
    entry of the catalog is a case-insensitive substring of the password.
    In an analysis cycle of the dashboard the warning line, present
    exactly when the precheck matches, is in the log once the request has
    been issued, hence before any result is applied; the compact surface
    runs no precheck: its cycle logs the start line alone, whatever the
    password.  On both surfaces the request is issued with the password
    whether or not the precheck matches, results only append to the log,
    and what a response does to the hooks other than the log does not
    depend on the password, so not on the precheck. *)
Theorem weak_precheck_is_advisory (pwd : string) :
  (isWeak pwd = true <->
   exists w, In w weakPasswordDatabase /\ ci_substring w pwd) /\
  (forall rt, exists rt',
      issueCheck Dashboard.ui rt pwd = Some rt' /\
      terminalLines (ui rt') =
        terminalLines (ui rt)
          ++ ["$ ANALYZING: " +++
              (if pwd =? "" then "EMPTY" else JS.repeat "•" (String.length pwd))]
          ++ (if isWeak pwd
              then ["⚠ WARNING: Password found in breach database!"] else []) /\
      strength (ui rt') = strength (ui rt) /\
      checks rt' = checks rt ++ [(now rt, pwd)] /\
      awaiting rt' = awaiting rt ++ [List.length (checks rt)]) /\
  (forall rt, exists rt',
      issueCheck Compact.ui rt pwd = Some rt' /\
      terminalLines (ui rt') =
        terminalLines (ui rt)
          ++ ["$ ANALYZING PASSWORD: "
              +++ (if pwd =? "" then "EMPTY" else "****")
              +++ " → CONNECTED TO BACKEND"] /\
      strength (ui rt') = strength (ui rt) /\
      checks rt' = checks rt ++ [(now rt, pwd)] /\
      awaiting rt' = awaiting rt ++ [List.length (checks rt)]) /\
  (forall S r h h',
      shipped S ->
      render h (after (checkPasswordStrength S pwd) r) = Some h' ->
      exists lines, terminalLines h' = terminalLines h ++ lines) /\
  (forall S pwd' r h,
      shipped S ->
      option_map (fun h' => (password h', strength h', generated h',
                             showPassword h', isAnalyzing h'))
                 (render h (after (checkPasswordStrength S pwd) r)) =
      option_map (fun h' => (password h', strength h', generated h',
                             showPassword h', isAnalyzing h'))
                 (render h (after (checkPasswordStrength S pwd') r))).
Proof.
  split; [apply isWeak_spec | split; [|split; [|split]]].
  - intros rt. rewrite dashboard_issueCheck. eexists. split; [reflexivity|].
    repeat split.
  - intros rt. rewrite compact_issueCheck. eexists. split; [reflexivity|].
    repeat split.
  - intros S r h h' [-> | ->] H; destruct r as [message | data]; simpl in H;
      try (injection H as <-; eexists; reflexivity);
      (destruct (JS.truthy (c_error data)); simpl in H;
       [injection H as <-; eexists; reflexivity|];
       destruct (c_suggestions data); [|discriminate];
       injection H as <-; eexists; reflexivity).
  - intros S pwd' r h [-> | ->]; destruct r as [message | data]; simpl;
      try reflexivity;
      (destruct (JS.truthy (c_error data)); simpl; [reflexivity|];
       destruct (c_suggestions data); reflexivity).
Qed.

(** ["MyPassWord123"] contains the catalog entry ["password"] up to
    letter case. *)
Lemma weak_precheck_is_advisory_witness : isWeak "MyPassWord123" = true.
Proof.
  apply (proj1 (weak_precheck_is_advisory "MyPassWord123")).
  exists "password". split.
  - simpl. tauto.
  - exists "My", "PassWord", "123". split; [reflexivity|].
    simpl. unfold same_letter.
    repeat split;
      first [ left; reflexivity | right; left; vm_compute; lia ].
Defined.

(** C6 as worded fails on the compact surface: its analysis cycle for
    ["password123"], which the catalog matches, issues the request and
    logs no warning. *)
Lemma compact_cycle_logs_no_warning :
  isWeak "password123" = true /\
  exists rt,
    run Compact.ui mounted (Input "password123" :: wait 500) = Some rt /\
    checks rt = [(500, "password123")] /\
    terminalLines (ui rt) =
      ["$ VISIBILITY: ENCRYPTED";
       "$ ANALYZING PASSWORD: **** → CONNECTED TO BACKEND"] /\
    ~ In "⚠ WARNING: Password found in breach database!" (terminalLines (ui rt)).
Proof.
  split; [reflexivity|].
  eexists. split; [vm_compute; reflexivity|]. cbn [ui checks terminalLines].
  repeat split. intros [H | [H | []]]; discriminate.
Qed.

(** The scenario of the specification: the warning is logged when the
    timer fires, before any response. *)
Example password123_warns_before_result :
  exists rt,
    run Dashboard.ui mounted (Input "password123" :: wait 500) = Some rt /\
    terminalLines (ui rt) =
      ["$ ANALYZING: " +++ JS.repeat "•" 11;
       "⚠ WARNING: Password found in breach database!"] /\
    checks rt = [(500, "password123")] /\
    strength (ui rt) = mkStrength (Some 0%Z) [].
Proof. eexists. split; [vm_compute; reflexivity|]. repeat split. Qed.

(** ** The generation controller *)

Section Generation.

Variable S : surface.
Hypothesis HS : shipped S.


Lemma after_generate_success (data : generate_data) (p : string) (h : hooks) :
  JS.truthy (g_error data) = false ->
  g_password data = Some p ->
  exists lines,
    render h (after (generateSecurePassword S) (Decoded data)) =
    Some (mkHooks (Some p) (strength h) (Some p) (showPassword h)
                  (terminalLines h ++ lines) (isAnalyzing h)).
Proof.
  intros He Hp. destruct HS as [-> | ->]; simpl; rewrite He; simpl;
    rewrite Hp; simpl; eexists; reflexivity.
Qed.

Lemma after_generate_failure (r : settled generate_data) (h : hooks) :
  successfulGenerate (GenerateSettled r) = false ->
  exists line,
    render h (after (generateSecurePassword S) r) = Some (logged h [line]).
Proof.
  intros Hr. destruct HS as [-> | ->], r as [message | data]; simpl in *;
    try (apply negb_false_iff in Hr; rewrite Hr); simpl;
    eexists; reflexivity.
Qed.

End Generation.



(** ** The generated value *)

Section GeneratedFrame.

Variable S : surface.
Hypothesis HS : shipped S.

Local Abbreviation quiet batch :=
  (forallb (fun c => negb (writes_generated c)) batch = true).

Lemma render_generated (batch : list setter) (h h' : hooks) :
  quiet batch -> render h batch = Some h' -> generated h' = generated h.
Proof.
  revert h. induction batch as [|c batch IH]; intros h Hq Hr; simpl in *.
  - now injection Hr as <-.
  - apply andb_true_iff in Hq. destruct Hq as [Hc Hq].
    destruct (dispatch h c) as [h1|] eqn:E; [|discriminate].
    rewrite (IH h1 Hq Hr).
    destruct c; simpl in *; try discriminate;
      try (injection E as <-; reflexivity).
    destruct (updater (terminalLines h)); [|discriminate].
    now injection E as <-.
Qed.

Lemma commit_generated (rt rt' : runtime) (batch : list setter) :
  quiet batch -> commit S rt batch = Some rt' ->
  generated (ui rt') = generated (ui rt).
Proof.
  intros Hq Hc.
  destruct (commit_render S rt rt' batch HS Hc) as [h [lines [Hr ->]]].
  destruct (rearmed_frame rt h (logged h lines)) as [-> _].
  cbn [logged generated]. eauto using render_generated.
Qed.

Lemma quiet_before_check (pwd : string) :
  quiet (before (checkPasswordStrength S pwd)).
Proof.
  destruct HS as [-> | ->]; simpl; [destruct (isWeak pwd)|]; reflexivity.
Qed.

Lemma quiet_after_check (pwd : string) (r : settled check_data) :
  quiet (after (checkPasswordStrength S pwd) r).
Proof.
  destruct HS as [-> | ->], r as [message | data]; simpl;
    try destruct (JS.truthy (c_error data)); reflexivity.
Qed.

Lemma quiet_cleared : quiet (passwordCleared S).
Proof. destruct HS as [-> | ->]; reflexivity. Qed.

Lemma quiet_before_generate : quiet (before (generateSecurePassword S)).
Proof. destruct HS as [-> | ->]; reflexivity. Qed.

Lemma quiet_after_generate (r : settled generate_data) :
  successfulGenerate (GenerateSettled r) = false ->
  quiet (after (generateSecurePassword S) r).
Proof.
  intros Hr. destruct HS as [-> | ->], r as [message | data]; simpl in *;
    try (apply negb_false_iff in Hr; rewrite Hr); reflexivity.
Qed.

Lemma debounceCallback_generated (rt rt' : runtime) (v : option string) :
  debounceCallback S rt v = Some rt' -> generated (ui rt') = generated (ui rt).
Proof.
  intros H. unfold debounceCallback in H.
  assert (Hi : forall pwd, issueCheck S rt pwd = Some rt' ->
                           generated (ui rt') = generated (ui rt)).
  { intros pwd Hi. destruct (issueCheck_ok S HS rt pwd) as [lines E].
    rewrite E in Hi. now injection Hi as <-. }
  destruct v as [pwd|]; [destruct (negb (pwd =? ""))|];
    eauto using commit_generated, quiet_cleared.
Qed.

Lemma fireAll_generated (ts : list timer) (rt rt' : runtime) :
  fireAll S rt ts = Some rt' -> generated (ui rt') = generated (ui rt).
Proof.
  revert rt. induction ts as [|t ts IH]; intros rt H; simpl in H.
  - now injection H as <-.
  - destruct (fire S rt t) as [rt1|] eqn:E; [|discriminate].
    rewrite (IH rt1 H). unfold fire in E.
    destruct (existsb _ _); [|now injection E as <-].
    now apply debounceCallback_generated in E.
Qed.

(** No step other than the arrival of an error-free generation response
    writes the generated value. *)
Lemma step_generated (rt rt' : runtime) (e : event) :
  successfulGenerate e = false -> step S rt e = Some rt' ->
  generated (ui rt') = generated (ui rt).
Proof.
  intros He H. destruct e; cbn [step] in H.
  - now apply commit_generated in H.
  - now apply commit_generated in H.
  - destruct (isAnalyzing (ui rt)); [now injection H as <-|].
    destruct (commit S rt _) as [rt1|] eqn:E; [|discriminate].
    injection H as <-. apply commit_generated in E; [exact E|].
    apply quiet_before_generate.
  - destruct (copyToClipboard S) as [handler|] eqn:Ec; [|now injection H as <-].
    destruct (JS.truthy _); [|now injection H as <-].
    apply commit_generated in H; [exact H|].
    destruct HS as [-> | ->]; simpl in Ec; [|discriminate].
    now injection Ec as <-.
  - unfold tick in H. now apply fireAll_generated in H.
  - destruct (existsb _ _); [|now injection H as <-].
    destruct (nth_error _ _) as [[? pwd]|]; [|now injection H as <-].
    apply commit_generated in H; [exact H | apply quiet_after_check].
  - destruct (generating rt); [now injection H as <-|].
    apply commit_generated in H; [exact H | now apply quiet_after_generate].
Qed.

Lemma run_generated (es : list event) (rt rt' : runtime) :
  Forall (fun e => successfulGenerate e = false) es ->
  run S rt es = Some rt' -> generated (ui rt') = generated (ui rt).
Proof.
  revert rt. induction es as [|e es IH]; intros rt Hf H; simpl in H.
  - now injection H as <-.
  - inversion Hf as [|? ? He Hf']; subst.
    destruct (step S rt e) as [rt1|] eqn:E; [|discriminate].
    rewrite (IH rt1 Hf' H). now apply step_generated in E.
Qed.

End GeneratedFrame.

(** C10: the generated value is written only by the arrival of an
    error-free generation response: no run made of other events (edits of
    the password text, clearing it, timer ticks, analysis responses,
    failed generations, clicks) changes it; so after a successful
    generation of [p], any such run leaves [generated] at [p], whatever
    the password text has become. *)
Theorem generated_written_only_by_generate
        (S : surface) (rt : runtime) (es : list event) (rt' : runtime) :
  shipped S ->
  Forall (fun e => successfulGenerate e = false) es ->
  run S rt es = Some rt' ->
  generated (ui rt') = generated (ui rt) /\
  (forall rt0 data p,
      generating rt0 <> 0 ->
      JS.truthy (g_error data) = false -> g_password data = Some p ->
      step S rt0 (GenerateSettled (Decoded data)) = Some rt ->
      generated (ui rt') = Some p).
Proof.
  intros HS Hf Hr.
  assert (E : generated (ui rt') = generated (ui rt))
    by (eapply run_generated; eassumption).
  split; [exact E|].
  intros rt0 data p Hg He Hp Hs. rewrite E. cbn [step] in Hs.
  destruct (generating rt0) as [|n]; [congruence|].
  match type of Hs with
  | commit S ?r _ = _ =>
      destruct (after_generate_success S HS data p (ui r) He Hp) as [l1 E1];
      destruct (commit_ok S r _ _ HS E1) as [l2 E2]
  end.
  rewrite E2 in Hs. injection Hs as <-. reflexivity.
Qed.

(** After a generation of ["Xk9#mQ2vLp!7"] the user retypes the text and
    clears it; the generated value stays, the password text does not. *)
Lemma generated_written_only_by_generate_witness :
  let start := mkRuntime (logged initialHooks ["$ GENERATING QUANTUM-SAFE PASSWORD..."])
                         [mkTimer 0 500 (Some "")] 1 0 0 [] [] 1 in
  let data := mkGenerate None (Some "Xk9#mQ2vLp!7") in
  let edits := Input "Xk9" :: wait 600 ++
               [CheckSettled 0 (Decoded (mkCheck None (Some 1%Z) (Some "WEAK")
                                                 (Some ["Add more characters"])));
                Input ""] in
  exists rt rt',
    step Dashboard.ui start (GenerateSettled (Decoded data)) = Some rt /\
    run Dashboard.ui rt edits = Some rt' /\
    generated (ui rt') = Some "Xk9#mQ2vLp!7" /\
    password (ui rt') = Some "".
Proof.
  intros start data edits.
  destruct (step Dashboard.ui start (GenerateSettled (Decoded data)))
    as [rt|] eqn:Es; [|vm_compute in Es; discriminate].
  destruct (run Dashboard.ui rt edits) as [rt'|] eqn:Er.
  - exists rt, rt'. split; [reflexivity|]. split; [exact Er|]. split.
    + refine (proj2 (generated_written_only_by_generate
                       Dashboard.ui rt edits rt' (or_introl eq_refl) _ Er)
                    start data "Xk9#mQ2vLp!7" _ eq_refl eq_refl Es).
      * unfold edits. repeat constructor.
      * discriminate.
    + vm_compute in Es. injection Es as <-. vm_compute in Er.
      injection Er as <-. reflexivity.
  - vm_compute in Es. injection Es as <-. vm_compute in Er. discriminate.
Defined.

(** ** Scenarios of the specification *)

(** Input ["a"]: after the 500 ms debounce the request carries ["a"]; a
    response with score 4 gives the label ["PERFECT"], a secure state and
    the crack-time line for a one-character password. *)
Example scenario_single_character :
  exists rt,
    run Dashboard.ui mounted
        (Input "a" :: wait 500 ++
         [CheckSettled 0 (Decoded (mkCheck None (Some 4%Z) (Some "PERFECT") (Some [])))])
    = Some rt /\
    checks rt = [(500, "a")] /\
    currentStrength (strength (ui rt)) = "PERFECT" /\
    isSecure (strength (ui rt)) = true /\
    In "⏱ Crack Time: < 1 second" (terminalLines (ui rt)) /\
    isAnalyzing (ui rt) = false.
Proof.
  eexists. split; [vm_compute; reflexivity|].
  cbn [ui checks strength terminalLines isAnalyzing].
  repeat split. simpl. tauto.
Qed.

(** A response [{error: "rate limited"}] leaves the strength as it was and
    logs a line that names the error. *)
Example scenario_rate_limited :
  exists rt,
    run Compact.ui mounted
        (Input "hunter2" :: wait 500 ++
         [CheckSettled 0 (Decoded (mkCheck (Some "rate limited") None None None))])
    = Some rt /\
    strength (ui rt) = strength initialHooks /\
    last (terminalLines (ui rt)) "" = "$ ANALYSIS FAILED: rate limited" /\
    isAnalyzing (ui rt) = false.
Proof. eexists. split; [vm_compute; reflexivity|]. repeat split. Qed.

(** A response that arrives after the text was cleared is still applied:
    responses are applied in arrival order. *)
Example scenario_late_response :
  exists rt,
    run Dashboard.ui mounted
        (Input "abc" :: wait 500 ++ Input "" :: wait 500 ++
         [CheckSettled 0 (Decoded (mkCheck None (Some 3%Z) (Some "STRONG") (Some [])))])
    = Some rt /\
    password (ui rt) = Some "" /\
    score (strength (ui rt)) = Some 3%Z /\
    checks rt = [(500, "abc")].
Proof. eexists. split; [vm_compute; reflexivity|]. repeat split. Qed.

(** * Further properties of the component *)

(** ** The request log *)

Section RequestLog.

Variable S : surface.
Hypothesis HS : shipped S.

Lemma spaced_snoc (cs : list (nat * string)) (c : nat * string) :
  spaced cs -> Forall (fun c' => fst c' + 500 <= fst c) cs -> spaced (cs ++ [c]).
Proof.
  induction cs as [|a cs IH]; intros Hs Hf; simpl.
  - split; [constructor | exact I].
  - destruct Hs as [Ha Hs]. inversion Hf as [|? ? Hac Hf']; subst.
    split; [|now apply IH].
    apply Forall_app. split; [exact Ha | repeat constructor; exact Hac].
Qed.

Lemma paced_mounted : paced mounted.
Proof. repeat split; repeat constructor. Qed.

(** A commit changes neither the clock nor the request log, and a timer
    it starts is due 500 ms from now. *)
Lemma rearmed_paced (rt : runtime) (h h' : hooks) :
  paced rt -> paced (with_ui (rearmed rt h) h').
Proof.
  intros [H1 [H2 [H3 H4]]]. unfold rearmed.
  destruct (same_value (password (ui rt)) (password h)).
  - repeat split; assumption.
  - repeat split; simpl; try assumption.
    apply Forall_app. split.
    + unfold clearTimeout. apply Forall_forall. intros t Ht.
      apply filter_In in Ht. destruct Ht as [Ht _].
      rewrite Forall_forall in H3. now apply H3.
    + repeat constructor. simpl. eapply Forall_impl; [|exact H1].
      intros c [Hc _]. simpl in Hc. lia.
Qed.

Lemma commit_paced (rt rt' : runtime) (batch : list setter) :
  paced rt -> commit S rt batch = Some rt' -> paced rt'.
Proof.
  intros Hp Hc.
  destruct (commit_render S rt rt' batch HS Hc) as [h [lines [_ ->]]].
  now apply rearmed_paced.
Qed.

Lemma tick_paced (rt rt' : runtime) :
  armed rt -> paced rt -> tick S rt = Some rt' -> paced rt'.
Proof.
  intros Ha [H1 [H2 [H3 H4]]] H.
  assert (H1' : Forall (fun c => fst c <= Datatypes.S (now rt) /\ snd c <> "")
                       (checks rt)).
  { eapply Forall_impl; [|exact H1]. intros c [Hc Hn]. split; [lia | exact Hn]. }
  destruct Ha as [Ht | [d [Ht Hd]]].
  - rewrite tick_quiet in H by (rewrite Ht; constructor).
    injection H as <-. unfold elapse. rewrite Nat.add_1_r.
    repeat split; assumption.
  - destruct (Nat.eq_dec d (Datatypes.S (now rt))) as [E | E].
    + rewrite (tick_fire S rt _ Ht E) in H. cbn [captured] in H.
      rewrite Ht in H3. inversion H3 as [|? ? H3' _]; subst. cbn [due] in H3'.
      set (rt0 := mkRuntime _ _ _ _ _ _ _ _) in H.
      assert (Hp0 : paced rt0) by (repeat split; try assumption; constructor).
      unfold debounceCallback in H.
      destruct (password (ui rt)) as [pwd|]; [|eauto using commit_paced].
      destruct (pwd =? "") eqn:Epwd; simpl in H; [eauto using commit_paced|].
      destruct (issueCheck_ok S HS rt0 pwd) as [lines Ei]. rewrite Ei in H.
      injection H as <-. unfold rt0. simpl.
      apply String.eqb_neq in Epwd. repeat split.
      * apply Forall_app. split; [exact H1' | repeat constructor; exact Epwd].
      * apply spaced_snoc; [exact H2 | exact H3'].
      * constructor.
      * apply Forall_app. split.
        -- eapply Forall_impl; [|exact H4]. intros i Hi. simpl in *.
           rewrite length_app. simpl. lia.
        -- repeat constructor. simpl. rewrite length_app. simpl. lia.
    + rewrite tick_quiet in H
        by (rewrite Ht; repeat constructor; simpl; lia).
      injection H as <-. unfold elapse. rewrite Nat.add_1_r.
      repeat split; assumption.
Qed.

Lemma step_paced (rt rt' : runtime) (e : event) :
  armed rt -> paced rt -> step S rt e = Some rt' -> paced rt'.
Proof.
  intros Ha Hp H. destruct e; cbn [step] in H.
  - eauto using commit_paced.
  - eauto using commit_paced.
  - destruct (isAnalyzing (ui rt)); [now injection H as <-|].
    destruct (commit S rt _) as [rt1|] eqn:E; [|discriminate].
    injection H as <-. apply (commit_paced rt rt1 _ Hp) in E. exact E.
  - destruct (copyToClipboard S); [|now injection H as <-].
    destruct (JS.truthy _); [|now injection H as <-].
    eauto using commit_paced.
  - eauto using tick_paced.
  - destruct (existsb _ _); [|now injection H as <-].
    destruct (nth_error _ _) as [[? pwd]|]; [|now injection H as <-].
    eapply commit_paced; [|exact H].
    destruct Hp as [H1 [H2 [H3 H4]]]. repeat split; try assumption. simpl.
    apply Forall_forall. intros j Hj. apply filter_In in Hj.
    rewrite Forall_forall in H4. now apply H4.
  - destruct (generating rt); [now injection H as <-|].
    eapply commit_paced; [|exact H]. exact Hp.
Qed.

Lemma run_paced (es : list event) (rt rt' : runtime) :
  armed rt -> paced rt -> run S rt es = Some rt' -> paced rt'.
Proof.
  revert rt. induction es as [|e es IH]; intros rt Ha Hp H; simpl in H.
  - now injection H as <-.
  - destruct (step S rt e) as [rt1|] eqn:E; [|discriminate].
    eauto using step_armed, step_paced.
Qed.

Lemma reachable_paced (rt : runtime) : reachable S rt -> paced rt.
Proof.
  intros [es H]. eapply run_paced; [apply mounted_armed | apply paced_mounted | exact H].
Qed.

End RequestLog.

(** X1: on either surface no request is ever issued for an empty password:
    in every reachable state each entry of the request log has a non-empty
    body and a time stamp that is not in the future. *)
Theorem requests_never_empty (S : surface) (rt : runtime) :
  shipped S -> reachable S rt ->
  Forall (fun c => snd c <> "" /\ fst c <= now rt) (checks rt).
Proof.
  intros HS Hr. destruct (reachable_paced S HS rt Hr) as [H _].
  eapply Forall_impl; [|exact H]. intros c [H1 H2]. now split.
Qed.

Lemma requests_never_empty_witness :
  exists rt,
    run Dashboard.ui mounted (Input "a" :: wait 500 ++ Input "" :: wait 500)
      = Some rt /\
    Forall (fun c => snd c <> "" /\ fst c <= now rt) (checks rt).
Proof.
  destruct (run Dashboard.ui mounted (Input "a" :: wait 500 ++ Input "" :: wait 500))
    as [rt|] eqn:E; [|vm_compute in E; discriminate].
  exists rt. split; [reflexivity|].
  apply (requests_never_empty Dashboard.ui rt (or_introl eq_refl)).
  now exists (Input "a" :: wait 500 ++ Input "" :: wait 500).
Defined.

(** X2: the debounce is a rate limit: in every reachable state any two
    requests of the log are at least 500 ms apart. *)
Theorem requests_500ms_apart (S : surface) (rt : runtime) :
  shipped S -> reachable S rt -> spaced (checks rt).
Proof.
  intros HS Hr. now destruct (reachable_paced S HS rt Hr) as [_ [H _]].
Qed.

Lemma requests_500ms_apart_witness :
  exists rt,
    run Compact.ui mounted
        (Input "a" :: wait 500 ++ Input "ab" :: wait 700 ++ Input "abc" :: wait 500)
      = Some rt /\
    List.length (checks rt) = 3 /\ spaced (checks rt).
Proof.
  destruct (run Compact.ui mounted
              (Input "a" :: wait 500 ++ Input "ab" :: wait 700 ++ Input "abc" :: wait 500))
    as [rt|] eqn:E; [|vm_compute in E; discriminate].
  exists rt. split; [reflexivity|]. split.
  - vm_compute in E. injection E as <-. reflexivity.
  - apply (requests_500ms_apart Compact.ui rt (or_intror eq_refl)).
    now exists (Input "a" :: wait 500 ++ Input "ab" :: wait 700 ++ Input "abc" :: wait 500).
Defined.

(** ** Which steps issue requests, and with what *)

Section Issuing.

Variable S : surface.
Hypothesis HS : shipped S.

Lemma commit_checks (rt rt' : runtime) (batch : list setter) :
  commit S rt batch = Some rt' ->
  checks rt' = checks rt /\ awaiting rt' = awaiting rt /\ now rt' = now rt.
Proof.
  intros Hc.
  destruct (commit_render S rt rt' batch HS Hc) as [h [lines [_ ->]]].
  destruct (rearmed_frame rt h (logged h lines)) as [_ [H1 [H2 [H3 _]]]].
  tauto.
Qed.

(** What a tick does in a state that satisfies the debounce invariant:
    nothing but move the clock, or run the callback of the one timer. *)
Lemma tick_cases (rt rt' : runtime) :
  armed rt -> tick S rt = Some rt' ->
  (checks rt' = checks rt /\ awaiting rt' = awaiting rt) \/
  (exists p lines,
      password (ui rt) = Some p /\ p <> "" /\
      rt' = mkRuntime
              (mkHooks (password (ui rt)) (strength (ui rt)) (generated (ui rt))
                       (showPassword (ui rt)) (terminalLines (ui rt) ++ lines)
                       true)
              [] (nextHandle rt) (cleanup rt) (Datatypes.S (now rt))
              (checks rt ++ [(Datatypes.S (now rt), p)])
              (awaiting rt ++ [List.length (checks rt)]) (generating rt)).
Proof.
  intros Ha H. destruct Ha as [Ht | [d [Ht Hd]]].
  - rewrite tick_quiet in H by (rewrite Ht; constructor).
    injection H as <-. now left.
  - destruct (Nat.eq_dec d (Datatypes.S (now rt))) as [E | E].
    + rewrite (tick_fire S rt _ Ht E) in H. cbn [captured] in H.
      set (rt0 := mkRuntime _ _ _ _ _ _ _ _) in H.
      unfold debounceCallback in H.
      destruct (password (ui rt)) as [pwd|] eqn:Ep;
        [|left; apply commit_checks in H; tauto].
      destruct (pwd =? "") eqn:Epwd; simpl in H;
        [left; apply commit_checks in H; tauto|].
      right. destruct (issueCheck_ok S HS rt0 pwd) as [lines Ei].
      rewrite Ei in H. injection H as <-.
      exists pwd, lines. apply String.eqb_neq in Epwd.
      unfold rt0. cbn [ui timers nextHandle cleanup now checks awaiting generating].
      rewrite Ep. repeat split. exact Epwd.
    + rewrite tick_quiet in H
        by (rewrite Ht; repeat constructor; simpl; lia).
      injection H as <-. now left.
Qed.

End Issuing.

(** X3: requests are issued by the debounce timer only, and with the text
    as it is when the timer fires: a step from a reachable state either
    leaves the request log as it was, or it is a tick, the password text
    [p] is not empty, and the log grows by one request for [p] stamped
    with the current time, the analyzing flag being raised. *)
Theorem request_carries_current_text
        (S : surface) (rt rt' : runtime) (e : event) :
  shipped S -> reachable S rt -> step S rt e = Some rt' ->
  checks rt' = checks rt \/
  (e = Tick /\
   exists p, password (ui rt) = Some p /\ p <> "" /\
             password (ui rt') = Some p /\
             checks rt' = checks rt ++ [(now rt', p)] /\
             isAnalyzing (ui rt') = true).
Proof.
  intros HS Hr H. pose proof (reachable_armed S HS rt Hr) as Ha.
  destruct e; cbn [step] in H.
  - left. now apply (commit_checks S HS) in H.
  - left. now apply (commit_checks S HS) in H.
  - left. destruct (isAnalyzing (ui rt)); [now injection H as <-|].
    destruct (commit S rt _) as [rt1|] eqn:E; [|discriminate].
    injection H as <-. now apply (commit_checks S HS) in E.
  - left. destruct (copyToClipboard S); [|now injection H as <-].
    destruct (JS.truthy _); [|now injection H as <-].
    now apply (commit_checks S HS) in H.
  - destruct (tick_cases S HS rt rt' Ha H) as [[H1 _] | [p [lines [Hp [Hn ->]]]]].
    + now left.
    + right. split; [reflexivity|]. exists p. repeat split; assumption.
  - left. destruct (existsb _ _); [|now injection H as <-].
    destruct (nth_error _ _) as [[? pwd]|]; [|now injection H as <-].
    now apply (commit_checks S HS) in H.
  - left. destruct (generating rt); [now injection H as <-|].
    now apply (commit_checks S HS) in H.
Qed.

(** The tick on which the timer of ["abc"] is due. *)
Lemma request_carries_current_text_witness :
  let rt := mkRuntime (mkHooks (Some "abc") (mkStrength (Some 0%Z) []) (Some "")
                               false [] false)
                      [mkTimer 1 500 (Some "abc")] 2 1 499 [] [] 0 in
  exists rt',
    step Dashboard.ui rt Tick = Some rt' /\ checks rt' = [(500, "abc")].
Proof.
  intros rt.
  destruct (step Dashboard.ui rt Tick) as [rt'|] eqn:E;
    [|vm_compute in E; discriminate].
  exists rt'. split; [reflexivity|].
  destruct (request_carries_current_text Dashboard.ui rt rt' Tick
              (or_introl eq_refl)
              (ex_intro _ (Input "abc" :: wait 499) eq_refl) E)
    as [H | [_ [p [Hp [_ [_ [H _]]]]]]].
  - vm_compute in E. injection E as <-. discriminate.
  - vm_compute in E. injection E as <-. injection Hp as <-. exact H.
Defined.

(** X4: unmounting leaks no debounce timer: in every reachable state the
    handle that the effect's cleanup clears is the handle of the only live
    timer, so after the cleanup no timer is live. *)
Theorem cleanup_clears_the_timer (S : surface) (rt : runtime) :
  shipped S -> reachable S rt -> afterCleanup rt = [].
Proof.
  intros HS Hr. apply clearTimeout_armed. now apply reachable_armed with S.
Qed.

Lemma cleanup_clears_the_timer_witness :
  exists rt,
    run Compact.ui mounted (Input "a" :: wait 100 ++ Input "ab" :: wait 100)
      = Some rt /\
    List.length (timers rt) = 1 /\ afterCleanup rt = [].
Proof.
  destruct (run Compact.ui mounted (Input "a" :: wait 100 ++ Input "ab" :: wait 100))
    as [rt|] eqn:E; [|vm_compute in E; discriminate].
  exists rt. split; [reflexivity|]. split.
  - vm_compute in E. injection E as <-. reflexivity.
  - apply (cleanup_clears_the_timer Compact.ui rt (or_intror eq_refl)).
    now exists (Input "a" :: wait 100 ++ Input "ab" :: wait 100).
Defined.

(** ** The terminal log *)

Section AppendOnly.

Variable S : surface.
Hypothesis HS : shipped S.

Lemma appending_append (lines : list string) : appending (append lines).
Proof. right. now exists lines. Qed.

Ltac appends :=
  unfold appends_only;
  repeat first [ apply Forall_nil | apply Forall_cons ];
  try exact I; try apply appending_append.

Lemma render_appends (batch : list setter) (h h' : hooks) :
  appends_only batch -> render h batch = Some h' ->
  exists lines, terminalLines h' = terminalLines h ++ lines.
Proof.
  revert h. induction batch as [|c batch IH]; intros h Ha Hr; simpl in Hr.
  - injection Hr as <-. exists []. now rewrite app_nil_r.
  - inversion Ha as [|? ? Hc Ha']; subst.
    destruct (dispatch h c) as [h1|] eqn:E; [|discriminate].
    destruct (IH h1 Ha' Hr) as [l2 E2]. rewrite E2.
    destruct c; simpl in E;
      try (injection E as <-; exists l2; reflexivity).
    destruct Hc as [Hn | [l1 Hl]].
    + now rewrite Hn in E.
    + rewrite Hl in E. injection E as <-. exists (l1 ++ l2).
      simpl. now rewrite app_assoc.
Qed.

Lemma commit_appends (rt rt' : runtime) (batch : list setter) :
  appends_only batch -> commit S rt batch = Some rt' ->
  exists lines, terminalLines (ui rt') = terminalLines (ui rt) ++ lines.
Proof.
  intros Ha Hc.
  destruct (commit_render S rt rt' batch HS Hc) as [h [l2 [Hr ->]]].
  destruct (render_appends batch _ _ Ha Hr) as [l1 E1].
  destruct (rearmed_frame rt h (logged h l2)) as [-> _].
  exists (l1 ++ l2). simpl. now rewrite E1, app_assoc.
Qed.

Lemma appends_before_check (pwd : string) :
  appends_only (before (checkPasswordStrength S pwd)).
Proof.
  destruct HS as [-> | ->]; simpl; [destruct (isWeak pwd)|]; simpl; appends.
Qed.

Lemma appends_after_check (pwd : string) (r : settled check_data) :
  appends_only (after (checkPasswordStrength S pwd) r).
Proof.
  destruct HS as [-> | ->], r as [message | data]; simpl;
    try destruct (JS.truthy (c_error data)); simpl; appends;
    (destruct (c_suggestions data);
     [right; eexists; intros prev; reflexivity | left; reflexivity]).
Qed.

Lemma appends_before_generate :
  appends_only (before (generateSecurePassword S)).
Proof.
  destruct HS as [-> | ->]; simpl; appends.
Qed.

Lemma appends_after_generate (r : settled generate_data) :
  appends_only (after (generateSecurePassword S) r).
Proof.
  destruct HS as [-> | ->], r as [message | data]; simpl;
    try destruct (JS.truthy (g_error data)); simpl; appends;
    (destruct (g_password data);
     [right; eexists; intros prev; reflexivity | left; reflexivity]).
Qed.

Lemma appends_cleared : appends_only (passwordCleared S).
Proof.
  destruct HS as [-> | ->]; simpl; appends.
Qed.

Lemma debounceCallback_appends (rt rt' : runtime) (v : option string) :
  debounceCallback S rt v = Some rt' ->
  exists lines, terminalLines (ui rt') = terminalLines (ui rt) ++ lines.
Proof.
  intros H. unfold debounceCallback in H.
  assert (Hi : forall pwd, issueCheck S rt pwd = Some rt' ->
                 exists lines, terminalLines (ui rt') = terminalLines (ui rt) ++ lines).
  { intros pwd Hi. destruct (issueCheck_ok S HS rt pwd) as [lines E].
    rewrite E in Hi. injection Hi as <-. now exists lines. }
  destruct v as [pwd|]; [destruct (negb (pwd =? ""))|];
    eauto using commit_appends, appends_cleared.
Qed.

Lemma fireAll_appends (ts : list timer) (rt rt' : runtime) :
  fireAll S rt ts = Some rt' ->
  exists lines, terminalLines (ui rt') = terminalLines (ui rt) ++ lines.
Proof.
  revert rt. induction ts as [|t ts IH]; intros rt H; simpl in H.
  - injection H as <-. exists []. now rewrite app_nil_r.
  - destruct (fire S rt t) as [rt1|] eqn:E; [|discriminate].
    destruct (IH rt1 H) as [l2 E2]. rewrite E2. unfold fire in E.
    destruct (existsb _ _).
    + apply debounceCallback_appends in E. destruct E as [l1 E1].
      simpl in E1. rewrite E1. exists (l1 ++ l2). now rewrite app_assoc.
    + injection E as <-. now exists l2.
Qed.

Lemma step_appends (rt rt' : runtime) (e : event) :
  step S rt e = Some rt' ->
  exists lines, terminalLines (ui rt') = terminalLines (ui rt) ++ lines.
Proof.
  assert (Hid : exists lines : list string,
             terminalLines (ui rt) = terminalLines (ui rt) ++ lines)
    by (exists []; now rewrite app_nil_r).
  intros H. destruct e; cbn [step] in H.
  - apply commit_appends in H; [exact H | appends].
  - apply commit_appends in H; [exact H | appends].
  - destruct (isAnalyzing (ui rt)); [now injection H as <-|].
    destruct (commit S rt _) as [rt1|] eqn:E; [|discriminate].
    injection H as <-. apply commit_appends in E; [exact E|].
    apply appends_before_generate.
  - destruct (copyToClipboard S) as [handler|] eqn:Ec; [|now injection H as <-].
    destruct (JS.truthy _); [|now injection H as <-].
    apply commit_appends in H; [exact H|].
    destruct HS as [-> | ->]; simpl in Ec; [|discriminate].
    injection Ec as <-. appends.
  - unfold tick in H. now apply fireAll_appends in H.
  - destruct (existsb _ _); [|now injection H as <-].
    destruct (nth_error _ _) as [[? pwd]|]; [|now injection H as <-].
    apply commit_appends in H; [exact H | apply appends_after_check].
  - destruct (generating rt); [now injection H as <-|].
    apply commit_appends in H; [exact H | apply appends_after_generate].
Qed.

End AppendOnly.

(** X5: on either surface the terminal log is append-only: whatever the
    events of a run (edits, clicks, ticks, responses of any kind), the log
    after the run is the log before it followed by new lines; no line is
    ever dropped, changed or reordered. *)
Theorem log_is_append_only
        (S : surface) (rt rt' : runtime) (es : list event) :
  shipped S -> run S rt es = Some rt' ->
  exists lines, terminalLines (ui rt') = terminalLines (ui rt) ++ lines.
Proof.
  intros HS. revert rt. induction es as [|e es IH]; intros rt H; simpl in H.
  - injection H as <-. exists []. now rewrite app_nil_r.
  - destruct (step S rt e) as [rt1|] eqn:E; [|discriminate].
    destruct (step_appends S HS rt rt1 e E) as [l1 E1].
    destruct (IH rt1 H) as [l2 E2].
    exists (l1 ++ l2). now rewrite E2, E1, app_assoc.
Qed.

Lemma log_is_append_only_witness :
  exists rt lines,
    run Compact.ui mounted
        (Input "abc" :: ToggleShow :: wait 500 ++
         [CheckSettled 0 (Thrown "Failed to fetch"); Input ""]) = Some rt /\
    terminalLines (ui rt) = terminalLines (ui mounted) ++ lines.
Proof.
  destruct (run Compact.ui mounted
              (Input "abc" :: ToggleShow :: wait 500 ++
               [CheckSettled 0 (Thrown "Failed to fetch"); Input ""]))
    as [rt|] eqn:E; [|vm_compute in E; discriminate].
  destruct (log_is_append_only Compact.ui mounted rt _ (or_intror eq_refl) E)
    as [lines H].
  exists rt, lines. split; [reflexivity | exact H].
Defined.

(** ** Responses *)

Section Responses.

Variable S : surface.
Hypothesis HS : shipped S.

(** A response that does not fault lowers the analyzing flag. *)
Lemma after_check_lowers_flag (pwd : string) (r : settled check_data)
      (h h' : hooks) :
  render h (after (checkPasswordStrength S pwd) r) = Some h' ->
  isAnalyzing h' = false /\ password h' = password h /\
  showPassword h' = showPassword h.
Proof.
  intros H.
  destruct r as [message | data].
  - destruct (after_check_failure S HS pwd (Thrown message) h I) as [line E].
    rewrite E in H. injection H as <-. repeat split.
  - destruct (JS.truthy (c_error data)) eqn:He.
    + destruct (after_check_failure S HS pwd (Decoded data) h He) as [line E].
      rewrite E in H. injection H as <-. repeat split.
    + destruct (c_suggestions data) as [sg|] eqn:Hs.
      * destruct (after_check_success S HS pwd data sg h He Hs) as [lines E].
        rewrite E in H. injection H as <-. repeat split.
      * destruct HS as [-> | ->]; simpl in H; rewrite He in H; simpl in H;
          rewrite Hs in H; discriminate.
Qed.

Lemma commit_total (rt : runtime) (batch : list setter) (h : hooks) :
  render (ui rt) batch = Some h -> exists rt', commit S rt batch = Some rt'.
Proof.
  intros Hr. destruct (commit_ok S rt batch h HS Hr) as [lines E]. eauto.
Qed.

Lemma fireAll_total (ts : list timer) (rt : runtime) :
  exists rt', fireAll S rt ts = Some rt'.
Proof.
  revert rt. induction ts as [|t ts IH]; intros rt; simpl; [eauto|].
  assert (E : exists rt1, fire S rt t = Some rt1).
  { unfold fire. destruct (existsb _ _); [|eauto].
    unfold debounceCallback.
    set (rt0 := mkRuntime _ _ _ _ _ _ _ _).
    assert (Hc : exists rt1, commit S rt0 (passwordCleared S) = Some rt1).
    { destruct (cleared_render S HS (ui rt0)) as [lines [Hr _]].
      eauto using commit_total. }
    destruct (captured t) as [pwd|]; [|exact Hc].
    destruct (negb (pwd =? "")); [|exact Hc].
    destruct (issueCheck_ok S HS rt0 pwd) as [lines Ei]. eauto. }
  destruct E as [rt1 ->]. apply IH.
Qed.

Lemma before_generate_render (h : hooks) :
  exists h', render h (before (generateSecurePassword S)) = Some h'.
Proof. destruct HS as [-> | ->]; eexists; reflexivity. Qed.

Lemma copy_render (handler : list setter) (h : hooks) :
  copyToClipboard S = Some handler -> exists h', render h handler = Some h'.
Proof.
  intros Ec. destruct HS as [-> | ->]; simpl in Ec; [|discriminate].
  injection Ec as <-. eexists. reflexivity.
Qed.

(** A digestible event never faults. *)
Lemma step_total (rt : runtime) (e : event) :
  digestible e = true -> exists rt', step S rt e = Some rt'.
Proof.
  intros Hd. destruct e; cbn [step].
  - eapply commit_total. reflexivity.
  - eapply commit_total. reflexivity.
  - destruct (isAnalyzing (ui rt)); [eauto|].
    destruct (before_generate_render (ui rt)) as [h Hr].
    destruct (commit_total rt _ h Hr) as [rt1 ->]. eauto.
  - destruct (copyToClipboard S) as [handler|] eqn:Ec; [|eauto].
    destruct (JS.truthy _); [|eauto].
    destruct (copy_render handler (ui rt) Ec) as [h Hr].
    eauto using commit_total.
  - apply fireAll_total.
  - destruct (existsb _ _); [|eauto].
    destruct (nth_error _ _) as [[? pwd]|]; [|eauto].
    set (rt0 := mkRuntime _ _ _ _ _ _ _ _).
    destruct r as [message | data].
    + destruct (after_check_failure S HS pwd (Thrown message) (ui rt0) I)
        as [line E]. eauto using commit_total.
    + simpl in Hd. destruct (JS.truthy (c_error data)) eqn:He.
      * destruct (after_check_failure S HS pwd (Decoded data) (ui rt0) He)
          as [line E]. eauto using commit_total.
      * destruct (c_suggestions data) as [sg|] eqn:Hs; [|discriminate].
        destruct (after_check_success S HS pwd data sg (ui rt0) He Hs)
          as [lines E]. eauto using commit_total.
  - destruct (generating rt) as [|n]; [eauto|].
    set (rt0 := mkRuntime _ _ _ _ _ _ _ _).
    destruct (successfulGenerate (GenerateSettled r)) eqn:Es.
    + destruct r as [message | data]; [discriminate|]. simpl in Es, Hd.
      apply negb_true_iff in Es. rewrite Es in Hd. simpl in Hd.
      destruct (g_password data) as [p|] eqn:Hp; [|discriminate].
      destruct (after_generate_success S HS data p (ui rt0) Es Hp)
        as [lines E]. eauto using commit_total.
    + destruct (after_generate_failure S HS r (ui rt0) Es) as [line E].
      eauto using commit_total.
Qed.

End Responses.

(** X6: every response that arrives for an awaited request and does not
    fault lowers the analyzing flag and retires that request only: the
    flag is a boolean, not a counter, so it is down after the first
    response even while other requests are still awaited. *)
Theorem response_lowers_analyzing_flag
        (S : surface) (rt rt' : runtime) (i : nat) (r : settled check_data) :
  shipped S -> reachable S rt -> In i (awaiting rt) ->
  step S rt (CheckSettled i r) = Some rt' ->
  isAnalyzing (ui rt') = false /\
  awaiting rt' = filter (fun j => negb (j =? i)%nat) (awaiting rt) /\
  checks rt' = checks rt.
Proof.
  intros HS Hr Hi H. cbn [step] in H.
  assert (E : existsb (Nat.eqb i) (awaiting rt) = true).
  { apply existsb_exists. exists i. split; [assumption | apply Nat.eqb_refl]. }
  rewrite E in H.
  destruct (reachable_paced S HS rt Hr) as [_ [_ [_ Ht]]].
  rewrite Forall_forall in Ht. specialize (Ht i Hi).
  destruct (nth_error (checks rt) i) as [[t pwd]|] eqn:En;
    [|apply nth_error_None in En; lia].
  destruct (commit_render S _ rt' _ HS H) as [h [lines [Hh ->]]].
  destruct (after_check_lowers_flag S HS pwd r _ h Hh) as [Hf [Hp _]].
  rewrite rearmed_same by exact Hp. cbn. repeat split. exact Hf.
Qed.

(** Two requests in flight; the first response arrives. *)
Lemma response_lowers_analyzing_flag_witness :
  exists rt rt',
    run Dashboard.ui mounted (Input "abc" :: wait 500 ++ Input "abcd" :: wait 500)
      = Some rt /\
    awaiting rt = [0; 1] /\ isAnalyzing (ui rt) = true /\
    step Dashboard.ui rt (CheckSettled 0 (Thrown "timeout")) = Some rt' /\
    isAnalyzing (ui rt') = false /\ awaiting rt' = [1].
Proof.
  destruct (run Dashboard.ui mounted
              (Input "abc" :: wait 500 ++ Input "abcd" :: wait 500))
    as [rt|] eqn:E; [|vm_compute in E; discriminate].
  assert (Hr : reachable Dashboard.ui rt) by (eexists; exact E).
  assert (Ha : awaiting rt = [0; 1] /\ isAnalyzing (ui rt) = true)
    by (vm_compute in E; injection E as <-; split; reflexivity).
  destruct Ha as [Ha1 Ha2].
  assert (Hi : In 0 (awaiting rt)) by (rewrite Ha1; left; reflexivity).
  destruct (step Dashboard.ui rt (CheckSettled 0 (Thrown "timeout")))
    as [rt'|] eqn:Es;
    [|vm_compute in E; injection E as <-; vm_compute in Es; discriminate].
  destruct (response_lowers_analyzing_flag Dashboard.ui rt rt' 0 _
              (or_introl eq_refl) Hr Hi Es) as [H1 [H2 _]].
  rewrite Ha1 in H2. simpl in H2.
  exists rt, rt'. repeat split; assumption.
Defined.

(** X7: the component never faults on digestible responses: from any
    state, a run whose check responses carry an error or a suggestions
    array (or failed) and whose generation responses carry an error or a
    password (or failed) goes through, whatever the edits, clicks, ticks
    and the order of arrival. *)
Theorem digestible_run_never_faults
        (S : surface) (rt : runtime) (es : list event) :
  shipped S -> Forall (fun e => digestible e = true) es ->
  exists rt', run S rt es = Some rt'.
Proof.
  intros HS. revert rt. induction es as [|e es IH]; intros rt Hf; simpl.
  - eauto.
  - inversion Hf as [|? ? He Hf']; subst.
    destruct (step_total S HS rt e He) as [rt1 ->]. now apply IH.
Qed.

Lemma digestible_run_never_faults_witness :
  exists rt',
    run Compact.ui mounted
        [Input "abc"; CheckSettled 7 (Decoded (mkCheck None None None (Some [])));
         ClickGenerate; GenerateSettled (Decoded (mkGenerate (Some "busy") None));
         Tick; ToggleShow] = Some rt'.
Proof.
  apply (digestible_run_never_faults Compact.ui mounted _ (or_intror eq_refl)).
  repeat constructor.
Defined.

(** X8: responses are applied in arrival order, not request order: with
    two requests awaited, the strength after both error-free responses
    have arrived is that of the response that arrived last, whichever of
    the two requests was issued first. *)
Theorem last_arrival_wins
        (S : surface) (rt : runtime) (i j ti tj : nat) (pi pj : string)
        (d1 d2 : check_data) (s1 s2 : list string) :
  shipped S -> i <> j ->
  In i (awaiting rt) -> In j (awaiting rt) ->
  nth_error (checks rt) i = Some (ti, pi) ->
  nth_error (checks rt) j = Some (tj, pj) ->
  JS.truthy (c_error d1) = false -> c_suggestions d1 = Some s1 ->
  JS.truthy (c_error d2) = false -> c_suggestions d2 = Some s2 ->
  exists rt',
    run S rt [CheckSettled i (Decoded d1); CheckSettled j (Decoded d2)] = Some rt' /\
    strength (ui rt') = mkStrength (c_score d2) s2 /\
    password (ui rt') = password (ui rt).
Proof.
  intros HS Hij Hi Hj Hni Hnj He1 Hs1 He2 Hs2.
  destruct (after_check_success S HS pi d1 s1 (ui rt) He1 Hs1) as [l1 E1].
  cbn [run].
  rewrite (check_settled_step S rt i ti pi _ _ Hi Hni E1 eq_refl eq_refl).
  match goal with
  | |- context [step S ?r (CheckSettled j _)] => set (rt1 := r)
  end.
  destruct (after_check_success S HS pj d2 s2 (ui rt1) He2 Hs2) as [l2 E2].
  assert (Hj1 : In j (awaiting rt1)).
  { unfold rt1. cbn [awaiting]. apply filter_In. split; [exact Hj|].
    apply negb_true_iff, Nat.eqb_neq. congruence. }
  rewrite (check_settled_step S rt1 j tj pj _ _ Hj1 Hnj E2 eq_refl eq_refl).
  eexists. split; [reflexivity|]. split; reflexivity.
Qed.

(** The older request answers after the newer one and overwrites it. *)
Lemma last_arrival_wins_witness :
  let rt := mkRuntime (mkHooks (Some "abcd") (mkStrength (Some 0%Z) []) (Some "")
                               false [] true)
                      [] 3 2 1000 [(500, "abc"); (1000, "abcd")] [0; 1] 0 in
  exists rt',
    run Dashboard.ui rt
        [CheckSettled 1 (Decoded (mkCheck None (Some 3%Z) (Some "STRONG") (Some [])));
         CheckSettled 0 (Decoded (mkCheck None (Some 1%Z) (Some "WEAK") (Some ["longer"])))]
      = Some rt' /\
    strength (ui rt') = mkStrength (Some 1%Z) ["longer"] /\
    password (ui rt') = Some "abcd".
Proof.
  intros rt.
  refine (last_arrival_wins Dashboard.ui rt 1 0 1000 500 "abcd" "abc"
            (mkCheck None (Some 3%Z) (Some "STRONG") (Some []))
            (mkCheck None (Some 1%Z) (Some "WEAK") (Some ["longer"]))
            [] ["longer"] (or_introl eq_refl) _ _ _ eq_refl eq_refl
            eq_refl eq_refl eq_refl eq_refl).
  - discriminate.
  - right. left. reflexivity.
  - left. reflexivity.
Defined.

(** ** What a cycle writes to the log *)

Lemma calculateCrackTime_length (p q : string) :
  String.length p = String.length q ->
  calculateCrackTime p = calculateCrackTime q.
Proof.
  intros H. unfold calculateCrackTime. now rewrite !eqb_empty_length, H.
Qed.

(** X9: an error-free response stores every suggestion as feedback but
    logs at most the first three of them, after three result lines on the
    dashboard and two on the compact surface. *)
Theorem all_suggestions_stored_three_logged
        (S : surface) (rt : runtime) (i t : nat) (pwd : string)
        (data : check_data) (suggestions : list string) :
  shipped S ->
  In i (awaiting rt) -> nth_error (checks rt) i = Some (t, pwd) ->
  JS.truthy (c_error data) = false -> c_suggestions data = Some suggestions ->
  exists rt' head,
    step S rt (CheckSettled i (Decoded data)) = Some rt' /\
    feedback (strength (ui rt')) = suggestions /\
    (S = Dashboard.ui ->
     List.length head = 3 /\
     terminalLines (ui rt') =
       terminalLines (ui rt) ++ head
         ++ map (fun s => "→ " +++ s) (firstn 3 suggestions)) /\
    (S = Compact.ui ->
     List.length head = 2 /\
     terminalLines (ui rt') =
       terminalLines (ui rt) ++ head
         ++ map (fun s => "$ RECOMMENDATION: " +++ s) (firstn 3 suggestions)).
Proof.
  intros [-> | ->] Hi Hn He Hs.
  - eexists.
    exists [ "✓ ANALYSIS COMPLETE: " +++ JS.showStr (c_strength data)
               +++ " (" +++ JS.showNum (c_score data) +++ "/4)";
             "⏱ Crack Time: " +++ calculateCrackTime pwd;
             "🛡 Protection Level: " +++
               (if JS.ge (c_score data) 3 then "SECURE" else "VULNERABLE") ].
    split.
    + eapply (check_settled_step Dashboard.ui rt i t pwd);
        [exact Hi | exact Hn
        | simpl; rewrite He; simpl; rewrite Hs; reflexivity
        | reflexivity | reflexivity].
    + cbn [ui strength feedback terminalLines]. split; [reflexivity|].
      split; [|discriminate]. intros _. split; [|reflexivity]. reflexivity.
  - eexists.
    exists [ "$ ANALYSIS COMPLETE: " +++ JS.showStr (c_strength data)
               +++ " (" +++ JS.showNum (c_score data) +++ "/4)";
             "$ THREAT LEVEL: " +++ JS.showStr (c_strength data) ].
    split.
    + eapply (check_settled_step Compact.ui rt i t pwd);
        [exact Hi | exact Hn
        | simpl; rewrite He; simpl; rewrite Hs; reflexivity
        | reflexivity | reflexivity].
    + cbn [ui strength feedback terminalLines]. split; [reflexivity|].
      split; [discriminate|]. intros _. split; [|reflexivity]. reflexivity.
Qed.

(** Five suggestions: all five are stored, three are logged. *)
Lemma all_suggestions_stored_three_logged_witness :
  let rt := mkRuntime initialHooks [] 1 0 0 [(0, "abc")] [0] 0 in
  let data := mkCheck None (Some 1%Z) (Some "WEAK")
                      (Some ["a"; "b"; "c"; "d"; "e"]) in
  exists rt',
    step Compact.ui rt (CheckSettled 0 (Decoded data)) = Some rt' /\
    List.length (feedback (strength (ui rt'))) = 5 /\
    List.length (terminalLines (ui rt')) = 5.
Proof.
  intros rt data.
  destruct (all_suggestions_stored_three_logged
              Compact.ui rt 0 0 "abc" data ["a"; "b"; "c"; "d"; "e"]
              (or_intror eq_refl) (or_introl eq_refl) eq_refl eq_refl eq_refl)
    as [rt' [head [H1 [H2 [_ H3]]]]].
  destruct (H3 eq_refl) as [H4 H5].
  exists rt'. split; [exact H1|]. rewrite H2, H5. split; [reflexivity|].
  rewrite !length_app, H4. reflexivity.
Defined.

(** X10: the log never shows the password text: on either surface the
    setter calls of a whole analysis cycle depend on the password only
    through its length and the answer of the precheck, so two passwords
    of equal length with the same precheck answer leave the same hooks,
    log included, before the request and after any response. *)
Theorem cycle_log_depends_on_length_only
        (S : surface) (p q : string) (r : settled check_data) (h : hooks) :
  shipped S ->
  String.length p = String.length q -> isWeak p = isWeak q ->
  render h (before (checkPasswordStrength S p)) =
  render h (before (checkPasswordStrength S q)) /\
  render h (after (checkPasswordStrength S p) r) =
  render h (after (checkPasswordStrength S q) r).
Proof.
  intros [-> | ->] Hl Hw; simpl.
  - rewrite (calculateCrackTime_length p q Hl), !eqb_empty_length, Hl, Hw.
    split; reflexivity.
  - rewrite !eqb_empty_length, Hl. split; reflexivity.
Qed.

Lemma cycle_log_depends_on_length_only_witness :
  render initialHooks (before (Dashboard.checkPasswordStrength "hunter2")) =
  render initialHooks (before (Dashboard.checkPasswordStrength "Tr0ub4d")).
Proof.
  exact (proj1 (cycle_log_depends_on_length_only
                  Dashboard.ui "hunter2" "Tr0ub4d" (Thrown "") initialHooks
                  (or_introl eq_refl) eq_refl eq_refl)).
Defined.

(** X11: the visibility effect of the compact surface.  An edit to a
    different, non-empty text appends one line, ["$ VISIBILITY: ENABLED"]
    when the password is shown and ["$ VISIBILITY: ENCRYPTED"] when it is
    hidden; clearing the text appends nothing; toggling the visibility
    appends the line of the new setting when the text is not empty and
    nothing when it is.  On the dashboard neither an edit nor the toggle
    writes to the log. *)
Theorem visibility_effect_lines (rt : runtime) (v : string) :
  password (ui rt) <> Some v ->
  (exists rt',
      step Compact.ui rt (Input v) = Some rt' /\
      terminalLines (ui rt') =
        terminalLines (ui rt)
          ++ (if v =? "" then []
              else if showPassword (ui rt) then ["$ VISIBILITY: ENABLED"]
                   else ["$ VISIBILITY: ENCRYPTED"])) /\
  (exists rt',
      step Compact.ui rt ToggleShow = Some rt' /\
      showPassword (ui rt') = negb (showPassword (ui rt)) /\
      terminalLines (ui rt') =
        terminalLines (ui rt)
          ++ (if JS.truthy (password (ui rt))
              then if showPassword (ui rt) then ["$ VISIBILITY: ENCRYPTED"]
                   else ["$ VISIBILITY: ENABLED"]
              else [])) /\
  (exists rt',
      step Dashboard.ui rt (Input v) = Some rt' /\
      terminalLines (ui rt') = terminalLines (ui rt)) /\
  (exists rt',
      step Dashboard.ui rt ToggleShow = Some rt' /\
      terminalLines (ui rt') = terminalLines (ui rt)).
Proof.
  intros Hv. apply same_value_neq in Hv.
  split; [|split; [|split]]; cbn [step]; unfold commit;
    cbn [render dispatch ui password showPassword strength generated
         terminalLines isAnalyzing];
    rewrite ?Hv, ?same_value_refl; cbn [negb orb].
  - cbn [visibilityEffect Compact.ui]. unfold Compact.visibilityEffect.
    cbn [with_ui debounceEffect ui password showPassword JS.truthy].
    destruct (v =? ""), (showPassword (ui rt)); cbn;
      eexists; (split; [reflexivity|]); rewrite ?app_nil_r; reflexivity.
  - cbn [visibilityEffect Compact.ui]. unfold Compact.visibilityEffect.
    cbn [with_ui ui password showPassword].
    destruct (showPassword (ui rt)), (JS.truthy (password (ui rt))); cbn;
      eexists; (split; [reflexivity|]); rewrite ?app_nil_r; split; reflexivity.
  - cbn. eexists. split; reflexivity.
  - destruct (showPassword (ui rt)); cbn; eexists; split; reflexivity.
Qed.

Lemma visibility_effect_lines_witness :
  exists rt',
    step Compact.ui mounted (Input "abc") = Some rt' /\
    terminalLines (ui rt') = ["$ VISIBILITY: ENCRYPTED"].
Proof.
  refine (proj1 (visibility_effect_lines mounted "abc" _)). discriminate.
Defined.

(** ** What the compact surface displays *)

Lemma sliceFromEnd_length {A} (n : nat) (l : list A) :
  List.length (sliceFromEnd n l) = Nat.min n (List.length l).
Proof. unfold sliceFromEnd. rewrite length_skipn. lia. Qed.

Lemma sliceFromEnd_suffix {A} (n : nat) (l : list A) :
  l = firstn (List.length l - n) l ++ sliceFromEnd n l.
Proof. unfold sliceFromEnd. now rewrite firstn_skipn. Qed.

Lemma sliceFromEnd_snoc {A} (n : nat) (l : list A) (x : A) :
  sliceFromEnd (Datatypes.S n) (l ++ [x]) = sliceFromEnd n l ++ [x].
Proof.
  unfold sliceFromEnd. rewrite length_app. simpl.
  replace (List.length l + 1 - Datatypes.S n) with (List.length l - n) by lia.
  rewrite skipn_app.
  replace (List.length l - n - List.length l) with 0 by lia.
  reflexivity.
Qed.

Lemma sliceFromEnd_idem {A} (n m : nat) (l : list A) :
  n <= m -> sliceFromEnd n (sliceFromEnd m l) = sliceFromEnd n l.
Proof.
  intros H. unfold sliceFromEnd at 1 3. rewrite sliceFromEnd_length.
  unfold sliceFromEnd. rewrite skipn_skipn. f_equal. lia.
Qed.

(** X12: the log panel of the compact surface is a sliding window over
    the log: it shows the last 20 lines (all of them while there are at
    most 20), always a suffix of the log in log order, and a line that is
    appended becomes its last line, the window moving on by one. *)
Theorem terminal_view_is_last_twenty (lines : list string) (line : string) :
  List.length (CompactView.terminalView lines) = Nat.min 20 (List.length lines) /\
  (exists older, lines = older ++ CompactView.terminalView lines) /\
  (List.length lines <= 20 -> CompactView.terminalView lines = lines) /\
  CompactView.terminalView (lines ++ [line]) =
    sliceFromEnd 20 (CompactView.terminalView lines ++ [line]).
Proof.
  unfold CompactView.terminalView. split; [|split; [|split]].
  - apply sliceFromEnd_length.
  - eexists. apply sliceFromEnd_suffix.
  - intros H. unfold sliceFromEnd.
    replace (List.length lines - 20) with 0 by lia. reflexivity.
  - rewrite !sliceFromEnd_snoc. f_equal. symmetry.
    apply sliceFromEnd_idem. lia.
Qed.

Lemma terminal_view_is_last_twenty_witness :
  CompactView.terminalView ["a"; "b"] = ["a"; "b"].
Proof.
  apply (proj1 (proj2 (proj2 (terminal_view_is_last_twenty ["a"; "b"] "")))).
  simpl. lia.
Defined.

(** X13: the five-segment bar of the compact surface lights the first
    [score + 1] segments, clamped between none and all five, in the fixed
    colours red, red, yellow, green, green; the others are gray, and with
    a missing score every segment is gray.  The bar is thus clamped to
    the table of five labels although the stored score is not. *)
Theorem segments_light_score_plus_one (z : Z) (f : list string) :
  let lit := Z.to_nat (Z.min 5 (Z.max 0 (z + 1))) in
  CompactView.segments (mkStrength (Some z) f) =
    firstn lit ["bg-red-500"; "bg-red-500"; "bg-yellow-500";
                "bg-green-500"; "bg-green-500"]
    ++ List.repeat "bg-gray-800" (5 - lit) /\
  CompactView.segments (mkStrength None f) = List.repeat "bg-gray-800" 5.
Proof.
  split; [|reflexivity].
  unfold CompactView.segments, CompactView.segmentClass, JS.ge. cbn [score map].
  assert (C : (z < 0 \/ z = 0 \/ z = 1 \/ z = 2 \/ z = 3 \/ 4 <= z)%Z) by lia.
  destruct C as [C | [C | [C | [C | [C | C]]]]];
    try (subst z; reflexivity).
  - replace (Z.to_nat (Z.min 5 (Z.max 0 (z + 1)))) with 0 by lia.
    repeat match goal with
           | |- context [(?a <=? z)%Z] =>
               destruct (Z.leb_spec a z); [lia|]
           end.
    reflexivity.
  - replace (Z.to_nat (Z.min 5 (Z.max 0 (z + 1)))) with 5 by lia.
    repeat match goal with
           | |- context [(?a <=? z)%Z] =>
               destruct (Z.leb_spec a z); [|lia]
           end.
    reflexivity.
Qed.

(** X14: on the compact surface the line "ALL SYSTEMS SECURE" does not
    depend on the score.  It is shown as soon as a non-empty text is typed
    into a component with no feedback and no analysis under way, during
    the whole debounce delay and before any request is issued; and it is
    shown after an error-free response without suggestions whatever the
    score of that response. *)
Theorem all_systems_secure_ignores_score (rt : runtime) :
  reachable Compact.ui rt ->
  (forall v pause,
      feedback (strength (ui rt)) = [] -> isAnalyzing (ui rt) = false ->
      password (ui rt) <> Some v -> v <> "" -> pause < 500 ->
      exists rt',
        run Compact.ui rt (Input v :: wait pause) = Some rt' /\
        checks rt' = checks rt /\
        strength (ui rt') = strength (ui rt) /\
        CompactView.feedbackPanel (ui rt') = CompactView.AllSystemsSecure) /\
  (forall i data,
      In i (awaiting rt) -> JS.truthy (password (ui rt)) = true ->
      JS.truthy (c_error data) = false -> c_suggestions data = Some [] ->
      exists rt',
        step Compact.ui rt (CheckSettled i (Decoded data)) = Some rt' /\
        score (strength (ui rt')) = c_score data /\
        CompactView.feedbackPanel (ui rt') = CompactView.AllSystemsSecure).
Proof.
  intros Hr. pose proof (reachable_armed _ (or_intror eq_refl) rt Hr) as Ha.
  split.
  - intros v pause Hf Hn Hv Hne Hp.
    destruct (input_rearms Compact.ui (or_intror eq_refl) rt v Ha Hv) as [l1 E1].
    cbn [run]. rewrite E1.
    erewrite wait_quiet; [| reflexivity | simpl; lia].
    eexists. split; [reflexivity|].
    unfold elapse, CompactView.feedbackPanel.
    cbn [ui checks strength password isAnalyzing JS.truthy].
    apply String.eqb_neq in Hne. rewrite Hne, Hf, Hn. repeat split.
  - intros i data Hi Hp He Hs.
    destruct (reachable_paced _ (or_intror eq_refl) rt Hr) as [_ [_ [_ Ht]]].
    rewrite Forall_forall in Ht. specialize (Ht i Hi).
    destruct (nth_error (checks rt) i) as [[t pwd]|] eqn:En;
      [|apply nth_error_None in En; lia].
    eexists. split.
    + eapply (check_settled_step Compact.ui rt i t pwd);
        [exact Hi | exact En
        | simpl; rewrite He; simpl; rewrite Hs; reflexivity
        | reflexivity | reflexivity].
    + unfold CompactView.feedbackPanel.
      cbn [ui strength score feedback password isAnalyzing orEmpty].
      rewrite Hp. split; reflexivity.
Qed.

(** Typing ["password"] into the fresh component: no request yet, label
    CRITICAL, and the panel says all systems are secure. *)
Lemma all_systems_secure_ignores_score_witness :
  exists rt',
    run Compact.ui mounted (Input "password" :: wait 100) = Some rt' /\
    checks rt' = [] /\
    currentStrength (strength (ui rt')) = "CRITICAL" /\
    CompactView.feedbackPanel (ui rt') = CompactView.AllSystemsSecure.
Proof.
  assert (Hv : password (ui mounted) <> Some "password") by discriminate.
  assert (Hne : "password" <> "") by discriminate.
  assert (Hp : 100 < 500) by lia.
  destruct (proj1 (all_systems_secure_ignores_score
                     mounted (ex_intro _ [] eq_refl))
                  "password" 100 eq_refl eq_refl Hv Hne Hp)
    as [rt' [H1 [H2 [H3 H4]]]].
  exists rt'. rewrite H3. repeat split; assumption.
Defined.

(** ** What the dashboard displays *)

(** X15: on the dashboard the header badge and the log agree: while a
    request issued by the handler is awaited the badge reads SCANNING, and
    after an error-free response it reads SECURE exactly when the
    protection line of the log says SECURE, namely when the score of the
    response is at least 3. *)
Theorem badge_agrees_with_protection_line
        (rt : runtime) (i t : nat) (pwd : string)
        (data : check_data) (suggestions : list string) :
  In i (awaiting rt) -> nth_error (checks rt) i = Some (t, pwd) ->
  JS.truthy (c_error data) = false -> c_suggestions data = Some suggestions ->
  (exists rt',
      step Dashboard.ui rt (CheckSettled i (Decoded data)) = Some rt' /\
      DashboardView.badge (ui rt') =
        (if JS.ge (c_score data) 3 then "SECURE" else "AT RISK") /\
      In ("🛡 Protection Level: " +++
          (if JS.ge (c_score data) 3 then "SECURE" else "VULNERABLE"))
         (terminalLines (ui rt'))) /\
  (forall p, exists rt1,
      issueCheck Dashboard.ui rt p = Some rt1 /\
      DashboardView.badge (ui rt1) = "SCANNING...").
Proof.
  intros Hi Hn He Hs. split.
  - eexists. split.
    + eapply (check_settled_step Dashboard.ui rt i t pwd);
        [exact Hi | exact Hn
        | simpl; rewrite He; simpl; rewrite Hs; reflexivity
        | reflexivity | reflexivity].
    + cbn [ui terminalLines]. split; [reflexivity|].
      apply in_or_app. right. right. right. left. reflexivity.
  - intros p. rewrite dashboard_issueCheck. eexists. split; reflexivity.
Qed.

Lemma badge_agrees_with_protection_line_witness :
  let rt := mkRuntime initialHooks [] 1 0 0 [(0, "abc")] [0] 0 in
  exists rt',
    step Dashboard.ui rt
         (CheckSettled 0 (Decoded (mkCheck None (Some 2%Z) (Some "FAIR") (Some []))))
      = Some rt' /\
    DashboardView.badge (ui rt') = "AT RISK" /\
    In "🛡 Protection Level: VULNERABLE" (terminalLines (ui rt')).
Proof.
  intros rt.
  exact (proj1 (badge_agrees_with_protection_line
                  rt 0 0 "abc" (mkCheck None (Some 2%Z) (Some "FAIR") (Some []))
                  [] (or_introl eq_refl) eq_refl eq_refl eq_refl)).
Defined.

(** ** The telemetry feeds over whole runs *)

Section FeedRuns.

Import Telemetry.
Local Open Scope Q_scope.
Local Open Scope Z_scope.

Lemma at_index_in_range {A} (arr : list A) (i : Z) :
  0 <= i < Z.of_nat (List.length arr) ->
  exists x, at_index arr i = Some x /\ In x arr.
Proof.
  intros H. unfold at_index. destruct (Z.ltb_spec i 0); [lia|].
  destruct (nth_error arr (Z.to_nat i)) as [x|] eqn:E.
  - exists x. split; [reflexivity|]. eapply nth_error_In. exact E.
  - apply nth_error_None in E. lia.
Qed.

Lemma Forall_firstn_of {A} (P : A -> Prop) (n : nat) (l : list A) :
  Forall P l -> Forall P (firstn n l).
Proof.
  revert n. induction l as [|x l IH]; intros [|n] H; simpl;
    try constructor; inversion H; subst; auto.
Qed.

Lemma get_in_range (s : string) (n : nat) :
  (n < String.length s)%nat ->
  exists c, String.get n s = Some c /\ In c (list_ascii_of_string s).
Proof.
  revert n. induction s as [|a s IH]; intros n H; simpl in H; [lia|].
  destruct n as [|n]; simpl.
  - exists a. split; [reflexivity | now left].
  - destruct (IH n) as [c [Hc Hin]]; [lia|].
    exists c. split; [exact Hc | now right].
Qed.

Lemma charAt_in_range (i : Z) :
  0 <= i < 70 ->
  exists c, charAt i = String c EmptyString /\
            In c (list_ascii_of_string chars).
Proof.
  intros H. unfold charAt. destruct (Z.ltb_spec i 0); [lia|].
  destruct (get_in_range chars (Z.to_nat i)) as [c [Hc Hin]].
  - change (String.length chars) with 70%nat. lia.
  - rewrite Hc. now exists c.
Qed.

Lemma concat_singletons (P : ascii -> Prop) (l : list string) :
  Forall (fun s => exists c, s = String c EmptyString /\ P c) l ->
  String.length (String.concat "" l) = List.length l /\
  Forall P (list_ascii_of_string (String.concat "" l)).
Proof.
  induction 1 as [|s l [c [-> Hc]] Hl [IH1 IH2]]; simpl.
  - split; [reflexivity | constructor].
  - destruct l as [|s' l].
    + split; [reflexivity | repeat constructor; exact Hc].
    + simpl in *. split; [now rewrite IH1 | constructor; assumption].
Qed.

Lemma generateRandomPassword_shape (draws : nat -> Q) :
  (forall k, unit_draw (draws k)) ->
  String.length (generateRandomPassword draws) = 16%nat /\
  Forall (fun c => In c (list_ascii_of_string chars))
         (list_ascii_of_string (generateRandomPassword draws)).
Proof.
  intros H. unfold generateRandomPassword.
  change 16%nat with (List.length (seq 0 16)) at 2.
  rewrite <- (length_map (fun k => charAt (floorScaled (draws k)
                                   (Z.of_nat (String.length chars)))) (seq 0 16)).
  apply concat_singletons. apply Forall_forall. intros s Hs.
  apply in_map_iff in Hs. destruct Hs as [k [<- _]].
  apply charAt_in_range.
  pose proof (floorScaled_range (draws k) 70 ltac:(lia) (H k)). 
  change (Z.of_nat (String.length chars)) with 70. lia.
Qed.

(** X16: [generateRandomPassword] returns exactly sixteen characters, each
    taken from its alphabet of 70, whatever values [Math.random()] gives. *)
Theorem generated_sample_has_sixteen_chars (draws : nat -> Q) :
  (forall k, unit_draw (draws k)) ->
  String.length (generateRandomPassword draws) = 16%nat /\
  Forall (fun c => In c (list_ascii_of_string chars))
         (list_ascii_of_string (generateRandomPassword draws)).
Proof. apply generateRandomPassword_shape. Qed.

Lemma generated_sample_has_sixteen_chars_witness :
  String.length (generateRandomPassword (fun _ => 1 # 2)) = 16%nat.
Proof.
  apply (generated_sample_has_sixteen_chars (fun _ => 1 # 2)).
  intros _. apply unit_draw_half.
Defined.

Lemma newAttack_well_formed (r_index : Q) (date_now : Z) (time : string)
      (r_attempts r_blocked : Q) :
  unit_draw r_index -> unit_draw r_attempts ->
  let a := newAttack r_index date_now time r_attempts r_blocked in
  (exists k, spread a = Some k /\ In k attackTypes) /\
  1000 <= attempts a <= 10999 /\ id a = date_now.
Proof.
  intros Hi Ha. cbn [newAttack spread attempts id]. split; [|split].
  - apply at_index_in_range.
    change (Z.of_nat (List.length attackTypes)) with 8.
    pose proof (floorScaled_range r_index 8 ltac:(lia) Hi). lia.
  - pose proof (floorScaled_range r_attempts 10000 ltac:(lia) Ha). lia.
  - reflexivity.
Qed.

Lemma created_attacks_well_formed (ps : list pulse) :
  Forall unit_pulse ps ->
  Forall (fun a => (exists k, spread a = Some k /\ In k attackTypes) /\
                   1000 <= attempts a <= 10999)
         (attacksCreated ps).
Proof.
  induction 1 as [|p ps Hp _ IH]; simpl; [constructor|].
  destruct p; simpl; try exact IH.
  destruct Hp as [Hi [Ha _]]. constructor; [|exact IH].
  destruct (newAttack_well_formed r_index date_now time r_attempts r_blocked Hi Ha)
    as [H1 [H2 _]].
  split; assumption.
Qed.

(** X17: every attack event in the buffer, in every state of a run whose
    draws are values of [Math.random()], carries one of the eight catalog
    archetypes (so its severity is MEDIUM, HIGH or CRITICAL) and between
    1000 and 10999 attempts. *)
Theorem attack_events_well_formed (ps : list pulse) :
  Forall unit_pulse ps ->
  Forall (fun a =>
            (exists k, spread a = Some k /\ In k attackTypes /\
                       In (a_severity k) ["MEDIUM"; "HIGH"; "CRITICAL"]) /\
            1000 <= attempts a <= 10999)
         (attackData (feed ps)).
Proof.
  intros H. rewrite attackData_feed. apply Forall_firstn_of, Forall_rev.
  eapply Forall_impl; [|apply created_attacks_well_formed; exact H].
  intros a [[k [Hk Hin]] Ha]. split; [|exact Ha].
  exists k. split; [exact Hk|]. split; [exact Hin|].
  simpl in Hin.
  repeat (destruct Hin as [<- | Hin]; [simpl; tauto|]). destruct Hin.
Qed.

Lemma attack_events_well_formed_witness :
  Forall (fun a =>
            (exists k, spread a = Some k /\ In k attackTypes /\
                       In (a_severity k) ["MEDIUM"; "HIGH"; "CRITICAL"]) /\
            1000 <= attempts a <= 10999)
         (attackData (feed [AttackTick (1 # 2) 1700000000000 "10:00:00"
                                       (1 # 2) (1 # 2)])).
Proof.
  apply attack_events_well_formed. repeat constructor; apply unit_draw_half.
Defined.

Lemma masked_short (pwd : string) :
  (String.length pwd <= 20)%nat ->
  DashboardView.maskedPassword pwd = JS.repeat "•" (String.length pwd).
Proof.
  intros H. unfold DashboardView.maskedPassword.
  rewrite Nat.min_l by exact H.
  destruct (Nat.ltb_spec 20 (String.length pwd)); [lia|].
  apply append_empty_r.
Qed.

Lemma created_checks_well_formed (ps : list pulse) :
  Forall unit_pulse ps ->
  Forall (fun c => exists s draws,
              l_spread c = Some s /\
              (forall k, unit_draw (draws k)) /\
              In s (checkTypes draws) /\
              (1 <= String.length (s_password s) <= 16)%nat)
         (checksCreated ps).
Proof.
  induction 1 as [|p ps Hp _ IH]; simpl; [constructor|].
  destruct p; simpl; try exact IH.
  destruct Hp as [Hd Hi]. constructor; [|exact IH].
  cbn [newCheck l_spread].
  destruct (at_index_in_range (checkTypes draws)
              (floorScaled r_index (Z.of_nat (List.length (checkTypes draws)))))
    as [s [Hs Hin]].
  - change (Z.of_nat (List.length (checkTypes draws))) with 6.
    pose proof (floorScaled_range r_index 6 ltac:(lia) Hi). lia.
  - exists s, draws. split; [exact Hs|]. split; [exact Hd|].
    split; [exact Hin|].
    destruct (generateRandomPassword_shape draws Hd) as [Hl _].
    simpl in Hin.
    repeat (destruct Hin as [<- | Hin]; [simpl; try rewrite Hl; lia|]).
    destruct Hin.
Qed.

(** X18: every live check in the buffer, in every state of a run whose
    draws are values of [Math.random()], spreads one of the six samples of
    [checkTypes] (the five fixed ones, or the sample whose password
    [generateRandomPassword] made from such draws); its password has
    between 1 and 16 characters, so the masked display shows one bullet
    per character and never the ellipsis. *)
Theorem live_checks_masked_in_full (ps : list pulse) :
  Forall unit_pulse ps ->
  Forall (fun c => exists s draws,
              l_spread c = Some s /\
              (forall k, unit_draw (draws k)) /\
              In s (checkTypes draws) /\
              (1 <= String.length (s_password s) <= 16)%nat /\
              DashboardView.maskedPassword (s_password s) =
                JS.repeat "•" (String.length (s_password s)))
         (liveChecks (feed ps)).
Proof.
  intros H. rewrite liveChecks_feed. apply Forall_firstn_of, Forall_rev.
  eapply Forall_impl; [|apply created_checks_well_formed; exact H].
  intros c [s [draws [Hs [Hd [Hin Hl]]]]]. exists s, draws.
  repeat (split; [assumption|]). apply masked_short. lia.
Qed.

Lemma live_checks_masked_in_full_witness :
  Forall (fun c => exists s draws,
              l_spread c = Some s /\
              (forall k, unit_draw (draws k)) /\
              In s (checkTypes draws) /\
              (1 <= String.length (s_password s) <= 16)%nat /\
              DashboardView.maskedPassword (s_password s) =
                JS.repeat "•" (String.length (s_password s)))
         (liveChecks (feed [LiveTick (fun _ => 1 # 2) (9 # 10)
                                     1700000000000 "10:00:00"])).
Proof.
  apply live_checks_masked_in_full. constructor; [|constructor].
  split; [intros k; apply unit_draw_half|].
  split; [unfold Qle | unfold Qlt]; simpl; lia.
Defined.

End FeedRuns.

Section FeedTotals.

Import Telemetry.
Local Open Scope Q_scope.
Local Open Scope Z_scope.

(** X19: over a whole run whose draws are values of [Math.random()] the
    two accumulators stay between 0 and 999 (resp. 49) times the number of
    global-stats ticks so far; the two resampled counters are 0 until the
    first such tick and inside 1000..1499 and 5000000..5999999 ever after,
    whatever attack or live-check ticks come in between. *)
Theorem stats_bounded_by_tick_count (ps : list pulse) :
  Forall unit_pulse ps ->
  let n := Z.of_nat (List.length (filter isStatsTick ps)) in
  let g := globalStats (feed ps) in
  0 <= attacksToday g <= 999 * n /\
  0 <= passwordsCompromised g <= 49 * n /\
  (n = 0 -> activeThreats g = 0 /\ weakPasswords g = 0) /\
  (0 < n -> 1000 <= activeThreats g <= 1499 /\
            5000000 <= weakPasswords g <= 5999999).
Proof.
  induction ps as [|p ps IH] using rev_ind; intros H.
  - cbv zeta. simpl. repeat split; lia.
  - apply Forall_app in H. destruct H as [Hps Hp].
    inversion Hp as [|? ? Hp' _]; subst. specialize (IH Hps).
    cbv zeta in *. rewrite feed_snoc, filter_app, length_app.
    destruct p; cbn [onPulse globalStats filter isStatsTick List.length app];
      rewrite ?Nat.add_0_r; try exact IH.
    destruct Hp' as [H1 [H2 [H3 H4]]].
    pose proof (floorScaled_range r1 1000 ltac:(lia) H1).
    pose proof (floorScaled_range r2 50 ltac:(lia) H2).
    pose proof (floorScaled_range r3 500 ltac:(lia) H3).
    pose proof (floorScaled_range r4 1000000 ltac:(lia) H4).
    destruct IH as [Ia [Ic _]].
    unfold statsUpdater.
    cbn [attacksToday passwordsCompromised activeThreats weakPasswords].
    repeat split; lia.
Qed.

Lemma stats_bounded_by_tick_count_witness :
  let g := globalStats (feed [StatsTick (1 # 2) (1 # 2) (1 # 2) (1 # 2);
                              AttackTick (1 # 2) 0 "" (1 # 2) (1 # 2);
                              StatsTick (1 # 2) (1 # 2) (1 # 2) (1 # 2)]) in
  0 <= attacksToday g <= 999 * 2 /\ 1000 <= activeThreats g <= 1499.
Proof.
  pose proof (stats_bounded_by_tick_count
                [StatsTick (1 # 2) (1 # 2) (1 # 2) (1 # 2);
                 AttackTick (1 # 2) 0 "" (1 # 2) (1 # 2);
                 StatsTick (1 # 2) (1 # 2) (1 # 2) (1 # 2)]) as H.
  cbv zeta in *.
  destruct H as [Ha [_ [_ Hr]]].
  - repeat constructor; apply unit_draw_half.
  - split; [exact Ha|]. apply Hr. simpl. lia.
Defined.

(** X20: the three feeds share no state: the global stats of a run are
    those of its global-stats ticks alone, the attack buffer that of its
    attack ticks alone, and the live-check buffer that of its live-check
    ticks alone, however the three intervals interleave. *)
Theorem feeds_are_independent (ps : list pulse) :
  globalStats (feed ps) = globalStats (feed (filter isStatsTick ps)) /\
  attackData (feed ps) = attackData (feed (filter isAttackTick ps)) /\
  liveChecks (feed ps) = liveChecks (feed (filter isLiveTick ps)).
Proof.
  induction ps as [|p ps [IH1 [IH2 IH3]]] using rev_ind; [repeat split|].
  rewrite !filter_app, feed_snoc.
  destruct p; cbn [filter isStatsTick isAttackTick isLiveTick];
    rewrite ?app_nil_r, ?feed_snoc;
    cbn [onPulse globalStats attackData liveChecks];
    repeat split; congruence.
Qed.

Lemma filter_partition_length {A} (f : A -> bool) (l : list A) :
  (List.length (filter f l) + List.length (filter (fun x => negb (f x)) l)
   = List.length l)%nat.
Proof.
  induction l as [|x l IH]; simpl; [reflexivity|].
  destruct (f x); simpl; lia.
Qed.

Lemma filter_length_bound {A} (f : A -> bool) (l : list A) :
  (List.length (filter f l) <= List.length l)%nat.
Proof.
  induction l as [|x l IH]; simpl; [lia|]. destruct (f x); simpl; lia.
Qed.

(** X21: the three tiles of the threats tab are consistent in every state
    of every run: blocked and active attacks add up to the number of
    events in the buffer, which is at most 10, and the count of critical
    attacks never exceeds it. *)
Theorem threat_tiles_are_consistent (ps : list pulse) :
  let shown := attackData (feed ps) in
  (DashboardView.blockedCount shown + DashboardView.activeCount shown
   = List.length shown)%nat /\
  (List.length shown <= 10)%nat /\
  (DashboardView.criticalCount shown <= List.length shown)%nat.
Proof.
  cbv zeta. split; [|split].
  - apply (filter_partition_length (fun a => blocked a)).
  - rewrite attackData_feed. apply firstn_le_length.
  - apply filter_length_bound.
Qed.

End FeedTotals.
